(** * CNC press brake simulator: the validation and replay engine

    A shallow embedding of the domain code of [cnc_press_brake_simulator.go]
    (the v0.3.0 single-file program): sheet model, bend validation, job
    controller, press brake, and the part of the application controller
    that gates a bend behind the radius-warning dialog.

    Conventions.
    - [float64] values are IEEE 754 binary64 numbers, modelled by the
      Standard Library's [spec_float] with [prec = 53] and [emax = 1024];
      Go's comparison operators are the IEEE comparisons (false on NaN).
    - Go's [int] is the 64-bit two's complement integer, a [Z] wrapped
      by [Int.wrap].
    - Methods with a pointer receiver take the receiver's value and return
      the updated value next to their result; a nil pointer is [None].
    - The [*BendStep] objects of a job live in a [Store]; the job's [Steps]
      are addresses into it, the sheet's [CurrentBends] are values. *)

From Stdlib Require Import ZArith List String Bool Lia.
From Stdlib Require Import Floats.SpecFloat.
Import ListNotations.

Local Open Scope Z_scope.

(* ================================================================== *)
(** ** Machine numbers *)

Definition float64 : Type := spec_float.

Module F64.

Definition prec : Z := 53.
Definition emax : Z := 1024.

(** The binary64 value of an integer constant, and of a decimal constant
    [n / d] (for [n] and [d] exactly representable the correctly rounded
    quotient is the double nearest to the decimal). *)
Definition of_Z (z : Z) : float64 := binary_normalize prec emax z 0 false.
Definition of_ratio (n d : Z) : float64 := SFdiv prec emax (of_Z n) (of_Z d).

Definition zero : float64 := S754_zero false.

Definition mul (x y : float64) : float64 := SFmul prec emax x y.

(** Go's [x < y], [x <= y], [x > y], [x >= y] on float64. *)
Definition lt (x y : float64) : bool := SFltb x y.
Definition le (x y : float64) : bool := SFleb x y.
Definition gt (x y : float64) : bool := SFltb y x.
Definition ge (x y : float64) : bool := SFleb y x.

Definition is_nan (x : float64) : bool :=
  match x with S754_nan => true | _ => false end.

End F64.

Declare Scope f64_scope.
Delimit Scope f64_scope with f64.
Infix "<" := F64.lt : f64_scope.
Infix "<=" := F64.le : f64_scope.
Infix ">" := F64.gt : f64_scope.
Infix ">=" := F64.ge : f64_scope.
Infix "*" := F64.mul : f64_scope.

Module Int.

(** Go's [int] on a 64-bit platform. *)
Definition min_int : Z := - 2 ^ 63.
Definition max_int : Z := 2 ^ 63 - 1.

Definition wrap (z : Z) : Z := (z + 2 ^ 63) mod 2 ^ 64 - 2 ^ 63.

Definition in_range (z : Z) : Prop := min_int <= z <= max_int.

(** [x++] *)
Definition incr (z : Z) : Z := wrap (z + 1).

End Int.

(* ================================================================== *)
(** ** Constants *)

Definition minSheetDimension : float64 := F64.of_ratio 1 10.
Definition maxSheetDimension : float64 := F64.of_Z 10000.
Definition minBendRadius : float64 := F64.zero.
Definition maxBendRadius : float64 := F64.of_Z 500.
Definition minBendAngle : float64 := F64.of_Z 1.
Definition maxBendAngle : float64 := F64.of_Z 179.

(** The literal [0.5] of [GetMinBendRadius] and the literal [1e-6] of
    [handleAddBendStep]. *)
Definition half : float64 := F64.of_ratio 1 2.
Definition radiusEpsilon : float64 := F64.of_ratio 1 1000000.

(* ================================================================== *)
(** ** Data model *)

Definition MaterialName : Type := string.

Definition SteelMaterial : MaterialName := "Steel"%string.
Definition AluminumMaterial : MaterialName := "Aluminum"%string.
Definition StainlessMaterial : MaterialName := "Stainless Steel"%string.
Definition CopperMaterial : MaterialName := "Copper"%string.
Definition MildSteelMaterial : MaterialName := "Mild Steel"%string.

Record MaterialDetails : Type := {
  Material_Name : MaterialName;
  Density : float64;
  YieldStress : float64;
  TensileModulus : float64;
  MinBendRadiusFactor : float64
}.

Definition BendDirection : Type := string.
Definition BendDirectionUp : BendDirection := "Up"%string.
Definition BendDirectionDown : BendDirection := "Down"%string.

Record BendStep : Type := {
  SequenceOrder : Z;
  Position : float64;
  TargetAngle : float64;
  Radius : float64;
  Direction : BendDirection
}.

Record SheetMetal : Type := {
  ID : string;
  OriginalLength : float64;
  Thickness : float64;
  Width : float64;
  Material : MaterialDetails;
  CurrentBends : list BendStep
}.

Record Punch : Type := {
  Punch_Name : string;
  Punch_Height : float64;
  Punch_Angle : float64;
  Punch_Radius : float64
}.

Record Die : Type := {
  Die_Name : string;
  VOpening : float64;
  Die_Angle : float64;
  ShoulderRadius : float64
}.

(** Errors, one constructor per [fmt.Errorf] of the domain code, carrying
    the values the message is formatted from. *)
Inductive error : Type :=
| ErrSheetIDEmpty
| ErrSheetDimensions (length width thickness : float64)
| ErrMaterialNotSpecified
| ErrMaterialNotSpecifiedFor (id : string)
| ErrJobNameEmpty
| ErrJobWithoutSheet
| ErrNoCurrentJob
| ErrCurrentJobNoSheet
| ErrBendPosition (pos length : float64)
| ErrBendRadius (radius : float64)
| ErrBendAngle (angle : float64)
| ErrNoCurrentJobToClear
| ErrJobOrSheetNil
| ErrToolingNotSet.

Inductive result (A : Type) : Type :=
| Ok (a : A)
| Err (e : error).
Arguments Ok {A} a.
Arguments Err {A} e.

Definition is_ok {A} (r : result A) : bool :=
  match r with Ok _ => true | Err _ => false end.

(* ================================================================== *)
(** ** Sheet model *)

Definition NewSheetMetal (id : string) (length width thickness : float64)
    (material : MaterialDetails) : result SheetMetal :=
  if (length <= F64.zero)%f64 || (width <= F64.zero)%f64
     || (thickness <= F64.zero)%f64
  then Err (ErrSheetDimensions length width thickness)
  else if String.eqb (Material_Name material) EmptyString
  then Err ErrMaterialNotSpecified
  else Ok {| ID := id;
             OriginalLength := length;
             Width := width;
             Thickness := thickness;
             Material := material;
             CurrentBends := [] |}.

(** The same constructor in [internal/models/models.go], the package layout
    of v0.4.0 that the second half of the source file writes out. *)

Module Refactored.

Definition NewSheetMetal (id : string) (length width thickness : float64)
    (material : MaterialDetails) : result SheetMetal :=
  if String.eqb id EmptyString then Err ErrSheetIDEmpty
  else if (length <= F64.zero)%f64 || (width <= F64.zero)%f64
          || (thickness <= F64.zero)%f64
  then Err (ErrSheetDimensions length width thickness)
  else if String.eqb (Material_Name material) EmptyString
  then Err (ErrMaterialNotSpecifiedFor id)
  else Ok {| ID := id;
             OriginalLength := length;
             Width := width;
             Thickness := thickness;
             Material := material;
             CurrentBends := [] |}.

End Refactored.

Definition ResetForm (s : SheetMetal) : SheetMetal :=
  {| ID := ID s;
     OriginalLength := OriginalLength s;
     Thickness := Thickness s;
     Width := Width s;
     Material := Material s;
     CurrentBends := [] |}.

Definition GetMinBendRadius (s : SheetMetal) : float64 :=
  if (Thickness s <= F64.zero)%f64 then F64.zero
  else if (MinBendRadiusFactor (Material s) <= F64.zero)%f64
  then (Thickness s * half)%f64
  else (Thickness s * MinBendRadiusFactor (Material s))%f64.

Definition defaultMaterials : list (MaterialName * MaterialDetails) :=
  [ (SteelMaterial,
     {| Material_Name := SteelMaterial; Density := F64.of_Z 7850;
        YieldStress := F64.of_Z 250; TensileModulus := F64.of_Z 200;
        MinBendRadiusFactor := F64.of_ratio 15 10 |});
    (AluminumMaterial,
     {| Material_Name := AluminumMaterial; Density := F64.of_Z 2700;
        YieldStress := F64.of_Z 100; TensileModulus := F64.of_Z 70;
        MinBendRadiusFactor := F64.of_Z 1 |});
    (StainlessMaterial,
     {| Material_Name := StainlessMaterial; Density := F64.of_Z 8000;
        YieldStress := F64.of_Z 215; TensileModulus := F64.of_Z 193;
        MinBendRadiusFactor := F64.of_Z 2 |});
    (CopperMaterial,
     {| Material_Name := CopperMaterial; Density := F64.of_Z 8960;
        YieldStress := F64.of_Z 70; TensileModulus := F64.of_Z 117;
        MinBendRadiusFactor := F64.of_ratio 8 10 |});
    (MildSteelMaterial,
     {| Material_Name := MildSteelMaterial; Density := F64.of_Z 7850;
        YieldStress := F64.of_Z 220; TensileModulus := F64.of_Z 200;
        MinBendRadiusFactor := F64.of_ratio 12 10 |}) ].

(* ================================================================== *)
(** ** The store of bend steps

    [&BendStep{...}] allocates a fresh object; [*step] reads it.  Objects
    are never freed (Go is garbage collected) and an address obtained from
    an allocation always designates an object, so reading is total. *)

Definition addr : Type := nat.

Record Store : Type := {
  next : addr;
  cell : addr -> BendStep
}.

Definition deref (h : Store) (p : addr) : BendStep := cell h p.

Definition new (h : Store) (b : BendStep) : addr * Store :=
  (next h,
   {| next := S (next h);
      cell := fun a => if Nat.eqb a (next h) then b else cell h a |}).

(** The step values a list of step pointers designates. *)
Definition stepValues (h : Store) (steps : list addr) : list BendStep :=
  map (deref h) steps.

(* ================================================================== *)
(** ** Job and job controller

    [Sheet] is the [*SheetMetal] of the job, reached only through the job
    (one sheet per job): the job holds its value, [None] for nil.  [Steps]
    holds the addresses of the step objects; every element comes from
    [&BendStep{...}] in [AddBendStepToCurrentJob], so nil is not among
    them. *)

Record Job : Type := {
  Job_Name : string;
  Sheet : option SheetMetal;
  Steps : list addr
}.

Definition NewJob (name : string) (sheet : option SheetMetal) : result Job :=
  if String.eqb name EmptyString then Err ErrJobNameEmpty
  else match sheet with
       | None => Err ErrJobWithoutSheet
       | Some s => Ok {| Job_Name := name; Sheet := Some s; Steps := [] |}
       end.

Definition set_Steps (j : Job) (steps : list addr) : Job :=
  {| Job_Name := Job_Name j; Sheet := Sheet j; Steps := steps |}.

Definition set_Sheet (j : Job) (sheet : option SheetMetal) : Job :=
  {| Job_Name := Job_Name j; Sheet := sheet; Steps := Steps j |}.

Record JobController : Type := {
  currentJob : option Job
}.

Definition NewJobController : JobController := {| currentJob := None |}.
Definition GetCurrentJob (jc : JobController) : option Job := currentJob jc.
Definition SetCurrentJob (jc : JobController) (job : option Job)
  : JobController := {| currentJob := job |}.

(** [len(s)] as an [int].  A slice of pointers holds fewer than [2^60]
    elements, so [len(s) + 1] does not overflow. *)
Definition len {A} (s : list A) : Z := Z.of_nat (List.length s).

Definition AddBendStepToCurrentJob (h : Store) (jc : JobController)
    (pos angle radius : float64) (dir : BendDirection)
  : result addr * (Store * JobController) :=
  match currentJob jc with
  | None => (Err ErrNoCurrentJob, (h, jc))
  | Some job =>
    match Sheet job with
    | None => (Err ErrCurrentJobNoSheet, (h, jc))
    | Some sheet =>
      if (pos <= F64.zero)%f64 || (pos >= OriginalLength sheet)%f64
      then (Err (ErrBendPosition pos (OriginalLength sheet)), (h, jc))
      else if (radius < minBendRadius)%f64 || (radius > maxBendRadius)%f64
      then (Err (ErrBendRadius radius), (h, jc))
      else if (angle < minBendAngle)%f64 || (angle > maxBendAngle)%f64
      then (Err (ErrBendAngle angle), (h, jc))
      else
        let step := {| SequenceOrder := len (Steps job) + 1;
                       Position := pos;
                       TargetAngle := angle;
                       Radius := radius;
                       Direction := dir |} in
        let '(p, h') := new h step in
        (Ok p, (h', {| currentJob := Some (set_Steps job (Steps job ++ [p])) |}))
    end
  end.

(** Go's [error] result: [None] is the nil error. *)
Definition ClearBendStepsFromCurrentJob (jc : JobController)
  : option error * JobController :=
  match currentJob jc with
  | None => (Some ErrNoCurrentJobToClear, jc)
  | Some job =>
    let job1 := set_Steps job [] in
    let job2 := match Sheet job1 with
                | Some sheet => set_Sheet job1 (Some (ResetForm sheet))
                | None => job1
                end in
    (None, {| currentJob := Some job2 |})
  end.

(* ================================================================== *)
(** ** Press brake *)

Record PressBrake : Type := {
  PressBrake_Name : string;
  currentPunch : option Punch;
  currentDie : option Die;
  totalPartsBentSession : Z
}.

Definition NewPressBrake (name : string) (punch : option Punch)
    (die : option Die) : PressBrake :=
  {| PressBrake_Name := name; currentPunch := punch; currentDie := die;
     totalPartsBentSession := 0 |}.

Definition SetPunch (pb : PressBrake) (p : Punch) : PressBrake :=
  {| PressBrake_Name := PressBrake_Name pb; currentPunch := Some p;
     currentDie := currentDie pb;
     totalPartsBentSession := totalPartsBentSession pb |}.

Definition SetDie (pb : PressBrake) (d : Die) : PressBrake :=
  {| PressBrake_Name := PressBrake_Name pb; currentPunch := currentPunch pb;
     currentDie := Some d;
     totalPartsBentSession := totalPartsBentSession pb |}.

Definition GetTotalPartsBentSession (pb : PressBrake) : Z :=
  totalPartsBentSession pb.

Definition set_CurrentBends (s : SheetMetal) (bends : list BendStep)
  : SheetMetal :=
  {| ID := ID s; OriginalLength := OriginalLength s; Thickness := Thickness s;
     Width := Width s; Material := Material s; CurrentBends := bends |}.

(** The loop [for i, step := range j.Steps] of [ProcessJob]: each
    iteration appends the value [*step] to the sheet's bends. *)
Fixpoint replay (h : Store) (steps : list addr) (bends : list BendStep)
  : list BendStep :=
  match steps with
  | [] => bends
  | step :: rest => replay h rest (bends ++ [deref h step])
  end.

(** [ProcessJob] reads the step objects and writes the job's sheet and the
    press brake; the returned [*SheetMetal] is the job's sheet. *)
Definition ProcessJob (h : Store) (pb : PressBrake) (j : option Job)
  : result SheetMetal * (PressBrake * option Job) :=
  match j with
  | None => (Err ErrJobOrSheetNil, (pb, j))
  | Some job =>
    match Sheet job with
    | None => (Err ErrJobOrSheetNil, (pb, j))
    | Some sheet =>
      match currentPunch pb, currentDie pb with
      | Some _, Some _ =>
        let sheet0 := ResetForm sheet in
        let sheet1 :=
          set_CurrentBends sheet0 (replay h (Steps job) (CurrentBends sheet0)) in
        let pb' :=
          {| PressBrake_Name := PressBrake_Name pb;
             currentPunch := currentPunch pb;
             currentDie := currentDie pb;
             totalPartsBentSession := Int.incr (totalPartsBentSession pb) |} in
        (Ok sheet1, (pb', Some (set_Sheet job (Some sheet1))))
      | _, _ => (Err ErrToolingNotSet, (pb, j))
      end
    end
  end.

(* ================================================================== *)
(** ** Application controller: adding a bend, and the confirm dialog

    Only the fields the bend and dialog handlers read or write are kept.
    - An editor is represented by what [strconv.ParseFloat] returns on its
      text: [None] when parsing fails.
    - [ac.currentJob] and [ac.jobController.currentJob] are the same [*Job]
      (set together in [NewAppController], never reassigned): the job is
      kept once, in the job controller.
    - The closures handed to [showConfirmDialog] are the constructors of
      [action]; [runAction] is their body.
    - A handler returns [None] when it dereferences a nil pointer. *)

Inductive status : Type :=
| StatusInitialized
| StatusJobControllerNotInitialized
| StatusNoActiveJobOrSheet
| StatusInvalidBendParameters
| StatusBendPositionOutside (pos length : float64)
| StatusBendRadiusOutside (radius : float64)
| StatusBendAngleOutside (angle : float64)
| StatusFailedToAddBendStep (e : error)
| StatusBendStepAdded
| StatusBendAdditionCancelled
| StatusNoActiveJobToClear
| StatusNoBendStepsToClear
| StatusFailedToClearSteps (e : error)
| StatusAllStepsCleared (job : string).

Inductive action : Type :=
| addStepAction (pos angle radius : float64) (direction : BendDirection)
| bendAdditionCancelled
| clearStepsAction.

Record AppController : Type := {
  jobController : option JobController;
  bendPositionEditor : option float64;
  bendAngleEditor : option float64;
  bendRadiusEditor : option float64;
  selectedDirectionIdx : Z;
  bendDirections : list string;
  statusText : status;
  statusIsError : bool;
  showDialog : bool;
  dialogTitle : string;
  dialogConfirmAction : option action;
  dialogCancelAction : option action
}.

(** The program state the handlers act on: the store of step objects and
    the application controller. *)
Record World : Type := {
  heap : Store;
  ac : AppController
}.

Definition set_status (a : AppController) (msg : status) (isError : bool)
  : AppController :=
  {| jobController := jobController a;
     bendPositionEditor := bendPositionEditor a;
     bendAngleEditor := bendAngleEditor a;
     bendRadiusEditor := bendRadiusEditor a;
     selectedDirectionIdx := selectedDirectionIdx a;
     bendDirections := bendDirections a;
     statusText := msg;
     statusIsError := isError;
     showDialog := showDialog a;
     dialogTitle := dialogTitle a;
     dialogConfirmAction := dialogConfirmAction a;
     dialogCancelAction := dialogCancelAction a |}.

Definition set_dialog (a : AppController) (shown : bool) (title : string)
    (onConfirm onCancel : option action) : AppController :=
  {| jobController := jobController a;
     bendPositionEditor := bendPositionEditor a;
     bendAngleEditor := bendAngleEditor a;
     bendRadiusEditor := bendRadiusEditor a;
     selectedDirectionIdx := selectedDirectionIdx a;
     bendDirections := bendDirections a;
     statusText := statusText a;
     statusIsError := statusIsError a;
     showDialog := shown;
     dialogTitle := title;
     dialogConfirmAction := onConfirm;
     dialogCancelAction := onCancel |}.

Definition set_jobController (a : AppController) (jc : JobController)
  : AppController :=
  {| jobController := Some jc;
     bendPositionEditor := bendPositionEditor a;
     bendAngleEditor := bendAngleEditor a;
     bendRadiusEditor := bendRadiusEditor a;
     selectedDirectionIdx := selectedDirectionIdx a;
     bendDirections := bendDirections a;
     statusText := statusText a;
     statusIsError := statusIsError a;
     showDialog := showDialog a;
     dialogTitle := dialogTitle a;
     dialogConfirmAction := dialogConfirmAction a;
     dialogCancelAction := dialogCancelAction a |}.

Definition updateStatus (msg : status) (isError : bool) (w : World) : World :=
  {| heap := heap w; ac := set_status (ac w) msg isError |}.

Definition showConfirmDialog (title : string)
    (onConfirm onCancel : option action) (w : World) : World :=
  {| heap := heap w; ac := set_dialog (ac w) true title onConfirm onCancel |}.

Definition dismissDialog (w : World) : World :=
  {| heap := heap w;
     ac := set_dialog (ac w) false (dialogTitle (ac w)) None None |}.

(** The job the application works on, [ac.currentJob]. *)
Definition ac_currentJob (w : World) : option Job :=
  match jobController (ac w) with
  | Some jc => currentJob jc
  | None => None
  end.

(** The step list of the current job (empty when there is no job). *)
Definition jobSteps (w : World) : list addr :=
  match ac_currentJob w with
  | Some job => Steps job
  | None => []
  end.

Definition runAction (a : action) (w : World) : option World :=
  match a with
  | addStepAction pos angle radius direction =>
    match jobController (ac w) with
    | None => None
    | Some jc =>
      let '(r, (h', jc')) :=
        AddBendStepToCurrentJob (heap w) jc pos angle radius direction in
      let w' := {| heap := h'; ac := set_jobController (ac w) jc' |} in
      match r with
      | Err e => Some (updateStatus (StatusFailedToAddBendStep e) true w')
      | Ok _ => Some (updateStatus StatusBendStepAdded false w')
      end
    end
  | bendAdditionCancelled =>
    Some (updateStatus StatusBendAdditionCancelled false w)
  | clearStepsAction =>
    match jobController (ac w) with
    | None => None
    | Some jc =>
      let '(r, jc') := ClearBendStepsFromCurrentJob jc in
      let w' := {| heap := heap w; ac := set_jobController (ac w) jc' |} in
      match r with
      | Some e => Some (updateStatus (StatusFailedToClearSteps e) true w')
      | None =>
        match currentJob jc' with
        | Some job => Some (updateStatus (StatusAllStepsCleared (Job_Name job)) false w')
        | None => None
        end
      end
    end
  end.

Definition selectedDirection (a : AppController) : BendDirection :=
  if (0 <=? selectedDirectionIdx a)
     && (selectedDirectionIdx a <? len (bendDirections a))
  then nth (Z.to_nat (selectedDirectionIdx a)) (bendDirections a)
           BendDirectionUp
  else BendDirectionUp.

Definition handleAddBendStep (w : World) : option World :=
  match jobController (ac w) with
  | None => Some (updateStatus StatusJobControllerNotInitialized true w)
  | Some jc =>
    match currentJob jc with
    | None => Some (updateStatus StatusNoActiveJobOrSheet true w)
    | Some job =>
      match Sheet job with
      | None => Some (updateStatus StatusNoActiveJobOrSheet true w)
      | Some sheet =>
        match bendPositionEditor (ac w), bendAngleEditor (ac w),
              bendRadiusEditor (ac w) with
        | Some pos, Some angle, Some radius =>
          let direction := selectedDirection (ac w) in
          if (pos <= F64.zero)%f64 || (pos >= OriginalLength sheet)%f64
          then Some (updateStatus
                       (StatusBendPositionOutside pos (OriginalLength sheet))
                       true w)
          else if (radius < minBendRadius)%f64 || (radius > maxBendRadius)%f64
          then Some (updateStatus (StatusBendRadiusOutside radius) true w)
          else if (angle < minBendAngle)%f64 || (angle > maxBendAngle)%f64
          then Some (updateStatus (StatusBendAngleOutside angle) true w)
          else
            let minSheetRadius := GetMinBendRadius sheet in
            let addStep := addStepAction pos angle radius direction in
            if (radius > radiusEpsilon)%f64 && (radius < minSheetRadius)%f64
            then Some (showConfirmDialog "Radius Warning"%string
                         (Some addStep) (Some bendAdditionCancelled) w)
            else runAction addStep w
        | _, _, _ => Some (updateStatus StatusInvalidBendParameters true w)
        end
      end
    end
  end.

Definition handleClearBendSequence (w : World) : option World :=
  match jobController (ac w) with
  | None => Some (updateStatus StatusJobControllerNotInitialized true w)
  | Some jc =>
    match currentJob jc with
    | None => Some (updateStatus StatusNoActiveJobToClear true w)
    | Some job =>
      if (len (Steps job) =? 0)
      then Some (updateStatus StatusNoBendStepsToClear false w)
      else Some (showConfirmDialog "Clear Bend Sequence"%string
                   (Some clearStepsAction) None w)
    end
  end.

(** The click on a dialog button, as [processEvents] handles it:
    [ac.dismissDialog(); if ac.dialog...Action != nil { ac.dialog...Action() }]. *)
Definition clickDialogButton (pending : AppController -> option action)
    (w : World) : option World :=
  let w' := dismissDialog w in
  match pending (ac w') with
  | Some a => runAction a w'
  | None => Some w'
  end.

(** The dialog part of [processEvents] for one frame. *)
Definition processDialogEvents (confirmClicked cancelClicked : bool)
    (w : World) : option World :=
  if showDialog (ac w) then
    match (if confirmClicked
           then clickDialogButton dialogConfirmAction w else Some w) with
    | None => None
    | Some w1 =>
      if cancelClicked then clickDialogButton dialogCancelAction w1
      else Some w1
    end
  else Some w.

(* ================================================================== *)
(** ** Sample data and definitions used to state the properties *)

Definition steel : MaterialDetails :=
  {| Material_Name := SteelMaterial; Density := F64.of_Z 7850;
     YieldStress := F64.of_Z 250; TensileModulus := F64.of_Z 200;
     MinBendRadiusFactor := F64.of_ratio 15 10 |}.

(** The sheet [NewAppController] starts with: 300 x 100 x 2 mm of steel. *)
Definition defaultSheet : SheetMetal :=
  {| ID := "DefaultSheet-001"%string;
     OriginalLength := F64.of_Z 300;
     Thickness := F64.of_Z 2;
     Width := F64.of_Z 100;
     Material := steel;
     CurrentBends := [] |}.

Definition sheetWithoutFactor : SheetMetal :=
  {| ID := "S"%string;
     OriginalLength := F64.of_Z 300; Thickness := F64.of_Z 2;
     Width := F64.of_Z 100;
     Material := {| Material_Name := "Unlisted"%string;
                    Density := F64.zero; YieldStress := F64.zero;
                    TensileModulus := F64.zero;
                    MinBendRadiusFactor := F64.zero |};
     CurrentBends := [] |}.

Definition sheetWithoutThickness : SheetMetal :=
  {| ID := "S"%string;
     OriginalLength := F64.of_Z 300; Thickness := F64.zero;
     Width := F64.of_Z 100; Material := steel; CurrentBends := [] |}.

Definition isRangeError (e : error) : bool :=
  match e with
  | ErrBendPosition _ _ | ErrBendRadius _ | ErrBendAngle _ => true
  | _ => false
  end.

(** A store with no object yet, the job and controller of a fresh
    application. *)
Definition emptyStore : Store :=
  {| next := 0%nat;
     cell := fun _ => {| SequenceOrder := 0; Position := F64.zero;
                         TargetAngle := F64.zero; Radius := F64.zero;
                         Direction := EmptyString |} |}.

Definition defaultJob : Job :=
  {| Job_Name := "DefaultJob-001"%string;
     Sheet := Some defaultSheet;
     Steps := [] |}.

Definition defaultController : JobController :=
  SetCurrentJob NewJobController (Some defaultJob).

Definition withPartBent (pb : PressBrake) : PressBrake :=
  {| PressBrake_Name := PressBrake_Name pb;
     currentPunch := currentPunch pb;
     currentDie := currentDie pb;
     totalPartsBentSession := Int.incr (totalPartsBentSession pb) |}.

(** The sheet a successful run leaves in the job. *)
Definition formedSheet (h : Store) (job : Job) (sheet : SheetMetal)
  : SheetMetal :=
  set_CurrentBends (ResetForm sheet) (stepValues h (Steps job)).

(** The state after [n] calls of [ProcessJob] in a row on the same press
    brake and job. *)
Fixpoint ProcessJob_times (n : nat) (h : Store) (pb : PressBrake)
    (j : option Job) : PressBrake * option Job :=
  match n with
  | O => (pb, j)
  | S k => ProcessJob_times k h (fst (snd (ProcessJob h pb j)))
             (snd (snd (ProcessJob h pb j)))
  end.

Definition defaultPunch : Punch :=
  {| Punch_Name := "Default Punch"%string; Punch_Height := F64.of_Z 50;
     Punch_Angle := F64.of_Z 90; Punch_Radius := F64.of_Z 1 |}.

Definition defaultDie : Die :=
  {| Die_Name := "Default Die"%string; VOpening := F64.of_Z 16;
     Die_Angle := F64.of_Z 90; ShoulderRadius := F64.of_Z 2 |}.

Definition defaultPressBrake : PressBrake :=
  NewPressBrake "CNC Press Brake Simulator"%string
    (Some defaultPunch) (Some defaultDie).

(** The store and controller after two accepted bends on the default job. *)
Definition twoBends : Store * JobController :=
  snd (AddBendStepToCurrentJob
         (fst (snd (AddBendStepToCurrentJob emptyStore defaultController
                      (F64.of_Z 50) (F64.of_Z 90) (F64.of_ratio 35 10)
                      BendDirectionUp)))
         (snd (snd (AddBendStepToCurrentJob emptyStore defaultController
                      (F64.of_Z 50) (F64.of_Z 90) (F64.of_ratio 35 10)
                      BendDirectionUp)))
         (F64.of_Z 120) (F64.of_Z 45) (F64.of_Z 4) BendDirectionDown).

Definition twoBendsJob : Job :=
  match currentJob (snd twoBends) with
  | Some job => job
  | None => defaultJob
  end.

Definition pressBrakeWithoutDie : PressBrake :=
  NewPressBrake "CNC Press Brake Simulator"%string (Some defaultPunch) None.

(** [sheet.CurrentBends[i] = b]: a later write into the formed state (out
    of range, Go panics: [None]). *)
Fixpoint setBend (bends : list BendStep) (i : nat) (b : BendStep)
  : option (list BendStep) :=
  match bends, i with
  | [], _ => None
  | _ :: rest, O => Some (b :: rest)
  | x :: rest, S k => option_map (cons x) (setBend rest k b)
  end.

(** The operations of a press brake. *)
Inductive PressBrakeOp : Type :=
| OpSetPunch (p : Punch)
| OpSetDie (d : Die)
| OpProcessJob (j : option Job).

Definition applyOp (h : Store) (op : PressBrakeOp) (pb : PressBrake)
  : PressBrake :=
  match op with
  | OpSetPunch p => SetPunch pb p
  | OpSetDie d => SetDie pb d
  | OpProcessJob j => fst (snd (ProcessJob h pb j))
  end.

(** The claim C5 as the specification words it: every successful call adds
    one to the counter. *)
Definition every_success_adds_one : Prop :=
  forall h pb j s pb' j',
    Int.in_range (totalPartsBentSession pb) ->
    ProcessJob h pb j = (Ok s, (pb', j')) ->
    totalPartsBentSession pb' = totalPartsBentSession pb + 1.

Definition pressBrakeAtMax : PressBrake :=
  {| PressBrake_Name := "CNC Press Brake Simulator"%string;
     currentPunch := Some defaultPunch;
     currentDie := Some defaultDie;
     totalPartsBentSession := Int.max_int |}.

Inductive ControllerOp : Type :=
| OpAdd (pos angle radius : float64) (dir : BendDirection)
| OpClear.

Definition stepOp (op : ControllerOp) (st : Store * JobController)
  : Store * JobController :=
  match op with
  | OpAdd pos angle radius dir =>
    snd (AddBendStepToCurrentJob (fst st) (snd st) pos angle radius dir)
  | OpClear => (fst st, snd (ClearBendStepsFromCurrentJob (snd st)))
  end.

Definition runOps (ops : list ControllerOp) (st : Store * JobController)
  : Store * JobController :=
  fold_left (fun st op => stepOp op st) ops st.

Definition opSucceeds (op : ControllerOp) (st : Store * JobController)
  : bool :=
  match op with
  | OpAdd pos angle radius dir =>
    is_ok (fst (AddBendStepToCurrentJob (fst st) (snd st)
                  pos angle radius dir))
  | OpClear =>
    match fst (ClearBendStepsFromCurrentJob (snd st)) with
    | None => true
    | Some _ => false
    end
  end.

Definition isAdd (op : ControllerOp) : bool :=
  match op with OpAdd _ _ _ _ => true | OpClear => false end.

(** All the operations of the list succeed, each in the state the earlier
    ones leave. *)
Fixpoint allSucceed (ops : list ControllerOp) (st : Store * JobController)
  : bool :=
  match ops with
  | [] => true
  | op :: rest => opSucceeds op st && allSucceed rest (stepOp op st)
  end.

Definition controllerSteps (st : Store * JobController) : list addr :=
  match currentJob (snd st) with
  | Some job => Steps job
  | None => []
  end.

(** Step [i] (0-based) carries the sequence number [i + 1]. *)
Definition dense (h : Store) (steps : list addr) : Prop :=
  forall i p, nth_error steps i = Some p ->
              SequenceOrder (deref h p) = Z.of_nat i + 1.

Definition allocated (h : Store) (steps : list addr) : Prop :=
  Forall (fun p => (p < next h)%nat) steps.

Definition sequenced (st : Store * JobController) : Prop :=
  dense (fst st) (controllerSteps st)
  /\ allocated (fst st) (controllerSteps st).

Definition threeAdds : list ControllerOp :=
  [ OpAdd (F64.of_Z 50) (F64.of_Z 90) (F64.of_ratio 35 10) BendDirectionUp;
    OpAdd (F64.of_Z 120) (F64.of_Z 45) (F64.of_Z 4) BendDirectionDown;
    OpAdd (F64.of_Z 200) (F64.of_Z 135) (F64.of_Z 3) BendDirectionUp ].

(** The step [addStepAction] allocates for the job. *)
Definition proposedStep (job : Job) (pos angle radius : float64)
    (dir : BendDirection) : BendStep :=
  {| SequenceOrder := len (Steps job) + 1; Position := pos;
     TargetAngle := angle; Radius := radius; Direction := dir |}.

(** The world after [addStepAction] has run with success. *)
Definition stepAdded (w : World) (job : Job) (pos angle radius : float64)
    (dir : BendDirection) : World :=
  updateStatus StatusBendStepAdded false
    {| heap := snd (new (heap w) (proposedStep job pos angle radius dir));
       ac := set_jobController (ac w)
               {| currentJob :=
                    Some (set_Steps job (Steps job ++ [next (heap w)])) |} |}.

(** The claim C1 as the specification words it: a bend that passes the
    range checks with 0 < radius < GetMinBendRadius(sheet) is not appended
    by the add-step handler itself. *)
Definition warned_bend_not_appended : Prop :=
  forall w jc job sheet pos angle radius w',
    jobController (ac w) = Some jc ->
    currentJob jc = Some job -> Sheet job = Some sheet ->
    bendPositionEditor (ac w) = Some pos ->
    bendAngleEditor (ac w) = Some angle ->
    bendRadiusEditor (ac w) = Some radius ->
    (pos > F64.zero)%f64 = true ->
    (pos < OriginalLength sheet)%f64 = true ->
    (radius >= F64.zero)%f64 = true ->
    (radius <= F64.of_Z 500)%f64 = true ->
    (angle >= F64.of_Z 1)%f64 = true ->
    (angle <= F64.of_Z 179)%f64 = true ->
    (radius > F64.zero)%f64 = true ->
    (radius < GetMinBendRadius sheet)%f64 = true ->
    handleAddBendStep w = Some w' ->
    jobSteps w' = jobSteps w.

(** The application with a bend typed in: position 50, angle 90 and the
    given radius, direction "Up", no dialog open. *)
Definition appWithBend (radius : float64) : World :=
  {| heap := emptyStore;
     ac := {| jobController := Some defaultController;
              bendPositionEditor := Some (F64.of_Z 50);
              bendAngleEditor := Some (F64.of_Z 90);
              bendRadiusEditor := Some radius;
              selectedDirectionIdx := 0;
              bendDirections := [BendDirectionUp; BendDirectionDown];
              statusText := StatusInitialized;
              statusIsError := false;
              showDialog := false;
              dialogTitle := EmptyString;
              dialogConfirmAction := None;
              dialogCancelAction := None |} |}.

(** The radius 0.0000001 mm. *)
Definition tinyRadius : float64 := F64.of_ratio 1 10000000.

(* ================================================================== *)
(** ** Catalogues: Go maps, material names, tooling manager

    A Go map is modelled by the list of its entries, in the order a
    [range] over it yields them; the keys are distinct.  Go leaves that
    order unspecified: what is proved below holds for every order. *)

Definition gomap (V : Type) : Type := list (string * V).

(** [v, ok := m[k]] *)
Fixpoint lookup {V : Type} (m : gomap V) (k : string) : option V :=
  match m with
  | [] => None
  | (k', v) :: rest => if String.eqb k' k then Some v else lookup rest k
  end.

Definition keys {V : Type} (m : gomap V) : list string := map fst m.

Definition mem (k : string) (l : list string) : bool :=
  existsb (String.eqb k) l.

Definition GetDefaultMaterials : gomap MaterialDetails := defaultMaterials.

Definition preferredOrder : list MaterialName :=
  [SteelMaterial; AluminumMaterial; StainlessMaterial; CopperMaterial;
   MildSteelMaterial].

(** The two loops of [GetMaterialNames]; [added] is the set of keys of the
    map [added] that hold [true]. *)
Definition addPreferred (mats : gomap MaterialDetails)
    (acc : list string * list MaterialName) (nameKey : MaterialName)
  : list string * list MaterialName :=
  match lookup mats nameKey with
  | Some _ => (fst acc ++ [nameKey], nameKey :: snd acc)
  | None => acc
  end.

Definition addOther (added : list MaterialName) (names : list string)
    (nameKey : MaterialName) : list string :=
  if mem nameKey added then names else names ++ [nameKey].

Definition GetMaterialNames (mats : gomap MaterialDetails) : list string :=
  let acc := fold_left (addPreferred mats) preferredOrder ([], []) in
  fold_left (addOther (snd acc)) (keys mats) (fst acc).

Record ToolingManager : Type := {
  punches : gomap Punch;
  dies : gomap Die
}.

Definition NewToolingManager : ToolingManager :=
  {| punches :=
       [ ("P88.10.R06"%string,
          {| Punch_Name := "P88.10.R06"%string; Punch_Height := F64.of_Z 60;
             Punch_Angle := F64.of_Z 88; Punch_Radius := F64.of_ratio 6 10 |});
         ("P30.15.R1"%string,
          {| Punch_Name := "P30.15.R1"%string; Punch_Height := F64.of_Z 65;
             Punch_Angle := F64.of_Z 30; Punch_Radius := F64.of_Z 1 |});
         ("Default Punch"%string, defaultPunch) ];
     dies :=
       [ ("D12.90.R2"%string,
          {| Die_Name := "D12.90.R2"%string; VOpening := F64.of_Z 12;
             Die_Angle := F64.of_Z 90; ShoulderRadius := F64.of_Z 2 |});
         ("D20.60.R3"%string,
          {| Die_Name := "D20.60.R3"%string; VOpening := F64.of_Z 20;
             Die_Angle := F64.of_Z 60; ShoulderRadius := F64.of_Z 3 |});
         ("Default Die"%string, defaultDie) ] |}.

Definition GetPunchNames (m : ToolingManager) : list string :=
  keys (punches m).

Definition GetDieNames (m : ToolingManager) : list string :=
  keys (dies m).

Definition GetPunchByName (m : ToolingManager) (name : string)
  : option Punch * bool :=
  match lookup (punches m) name with
  | Some p => (Some p, true)
  | None => (None, false)
  end.

Definition GetDieByName (m : ToolingManager) (name : string)
  : option Die * bool :=
  match lookup (dies m) name with
  | Some d => (Some d, true)
  | None => (None, false)
  end.

Definition GetDefaultPunch (m : ToolingManager) : option Punch :=
  match GetPunchByName m "Default Punch"%string with
  | (p, true) => p
  | (_, false) =>
    match punches m with
    | (_, p) :: _ => Some p
    | [] => None
    end
  end.

Definition GetDefaultDie (m : ToolingManager) : option Die :=
  match GetDieByName m "Default Die"%string with
  | (d, true) => d
  | (_, false) =>
    match dies m with
    | (_, d) :: _ => Some d
    | [] => None
    end
  end.

(* ================================================================== *)
(** ** The job controller of the v0.4.0 layout

    [internal/job/job.go]: the same method with the position check only. *)

Module RefactoredJob.

Definition AddBendStepToCurrentJob (h : Store) (jc : JobController)
    (pos angle radius : float64) (dir : BendDirection)
  : result addr * (Store * JobController) :=
  match currentJob jc with
  | None => (Err ErrNoCurrentJob, (h, jc))
  | Some job =>
    match Sheet job with
    | None => (Err ErrCurrentJobNoSheet, (h, jc))
    | Some sheet =>
      if (pos <= F64.zero)%f64 || (pos >= OriginalLength sheet)%f64
      then (Err (ErrBendPosition pos (OriginalLength sheet)), (h, jc))
      else
        let step := {| SequenceOrder := len (Steps job) + 1;
                       Position := pos;
                       TargetAngle := angle;
                       Radius := radius;
                       Direction := dir |} in
        let '(p, h') := new h step in
        (Ok p, (h', {| currentJob := Some (set_Steps job (Steps job ++ [p])) |}))
    end
  end.

End RefactoredJob.

(* ================================================================== *)
(** ** Application controller: the other handlers

    The handlers below are given the fields of [AppController] they read
    and return the fields they write.  The status line is left out, except
    where the outcome of the handler is read from it: it is then returned
    as a value of its own. *)

(** The initial selection of [NewAppController]: the index of the first
    name equal to the target, 0 when there is none, -1 for no names. *)
Fixpoint indexOfFrom (names : list string) (target : string) (i : Z)
  : option Z :=
  match names with
  | [] => None
  | name :: rest =>
    if String.eqb name target then Some i else indexOfFrom rest target (i + 1)
  end.

Definition initialSelection (names : list string) (target : option string)
  : Z :=
  let idx := match target with
             | Some t => match indexOfFrom names t 0 with
                         | Some i => i
                         | None => 0
                         end
             | None => 0
             end in
  if len names =? 0 then -1 else idx.

(** [(idx + 1) % len(names)]: Go's [%] truncates towards zero. *)
Definition nextIndex (idx : Z) (names : list string) : Z :=
  Z.rem (Int.wrap (idx + 1)) (len names).

(** [names[idx]]: out of range, Go panics. *)
Definition index (names : list string) (idx : Z) : option string :=
  if (0 <=? idx) && (idx <? len names) then nth_error names (Z.to_nat idx)
  else None.

(** The click on the bend direction selector: the new index, [None] when
    the status message indexes the list out of range. *)
Definition bendDirectionClick (idx : Z) (directions : list string)
  : option Z :=
  if 0 <? len directions then
    let idx' := nextIndex idx directions in
    match index directions idx' with
    | Some _ => Some idx'
    | None => None
    end
  else Some idx.

(** The click on the punch selector: the new index and press brake, [None]
    for a run-time panic. *)
Definition punchSelectClick (toolingManager : option ToolingManager)
    (punchNames : list string) (idx : Z) (pb : option PressBrake)
  : option (Z * option PressBrake) :=
  if 0 <? len punchNames then
    let idx' := nextIndex idx punchNames in
    match toolingManager, pb with
    | Some tm, Some brake =>
      if idx' <? len punchNames then
        match index punchNames idx' with
        | None => None
        | Some name =>
          match GetPunchByName tm name with
          | (Some punch, true) => Some (idx', Some (SetPunch brake punch))
          | _ => Some (idx', pb)
          end
        end
      else Some (idx', pb)
    | _, _ => Some (idx', pb)
    end
  else Some (idx, pb).

Definition dieSelectClick (toolingManager : option ToolingManager)
    (dieNames : list string) (idx : Z) (pb : option PressBrake)
  : option (Z * option PressBrake) :=
  if 0 <? len dieNames then
    let idx' := nextIndex idx dieNames in
    match toolingManager, pb with
    | Some tm, Some brake =>
      if idx' <? len dieNames then
        match index dieNames idx' with
        | None => None
        | Some name =>
          match GetDieByName tm name with
          | (Some die, true) => Some (idx', Some (SetDie brake die))
          | _ => Some (idx', pb)
          end
        end
      else Some (idx', pb)
    | _, _ => Some (idx', pb)
    end
  else Some (idx, pb).

(** The zero value of [MaterialDetails], what [ac.materials[name]] gives
    for a missing name. *)
Definition zeroMaterial : MaterialDetails :=
  {| Material_Name := EmptyString; Density := F64.zero;
     YieldStress := F64.zero; TensileModulus := F64.zero;
     MinBendRadiusFactor := F64.zero |}.

Definition set_Material (s : SheetMetal) (m : MaterialDetails) : SheetMetal :=
  {| ID := ID s; OriginalLength := OriginalLength s; Thickness := Thickness s;
     Width := Width s; Material := m; CurrentBends := CurrentBends s |}.

(** The click on the material selector: the new index and job. *)
Definition materialSelectClick (materials : gomap MaterialDetails)
    (materialNames : list string) (idx : Z) (job : option Job)
  : option (Z * option Job) :=
  if 0 <? len materialNames then
    let idx' := nextIndex idx materialNames in
    match job with
    | Some j =>
      match Sheet j with
      | Some sheet =>
        match index materialNames idx' with
        | None => None
        | Some name =>
          let m := match lookup materials name with
                   | Some details => details
                   | None => zeroMaterial
                   end in
          Some (idx', Some (set_Sheet j (Some (set_Material sheet m))))
        end
      | None => Some (idx', job)
      end
    | None => Some (idx', job)
    end
  else Some (idx, job).

(** The fields [handleSheetUpdate] reads: the three editors (as for the
    bend editors, what [strconv.ParseFloat] returns on their text), the
    material selection and the catalogue. *)
Record SheetPanel : Type := {
  sheetLengthEditor : option float64;
  sheetThicknessEditor : option float64;
  sheetWidthEditor : option float64;
  selectedMaterialIdx : Z;
  materialNames : list string;
  materials : gomap MaterialDetails
}.

Inductive sheetStatus : Type :=
| SheetNoActiveJob
| SheetInvalidDimensions
| SheetDimensionsOutOfRange
| SheetMaterialNotFound (name : string)
| SheetNoMaterialSelected
| SheetUpdateError (e : error)
| SheetUpdated (job : string).

Definition outOfSheetRange (x : float64) : bool :=
  (x < minSheetDimension)%f64 || (x > maxSheetDimension)%f64.

(** [handleSheetUpdate] of the v0.3.0 program writes the sheet in place. *)
Definition handleSheetUpdate (panel : SheetPanel) (job : option Job)
  : sheetStatus * option Job :=
  match job with
  | None => (SheetNoActiveJob, job)
  | Some j =>
    match Sheet j with
    | None => (SheetNoActiveJob, job)
    | Some sheet =>
      match sheetLengthEditor panel, sheetThicknessEditor panel,
            sheetWidthEditor panel with
      | Some length, Some thickness, Some width =>
        if outOfSheetRange length || outOfSheetRange thickness
           || outOfSheetRange width
        then (SheetDimensionsOutOfRange, job)
        else if (0 <=? selectedMaterialIdx panel)
                && (selectedMaterialIdx panel <? len (materialNames panel))
        then
          let name := nth (Z.to_nat (selectedMaterialIdx panel))
                          (materialNames panel) EmptyString in
          match lookup (materials panel) name with
          | None => (SheetMaterialNotFound name, job)
          | Some details =>
            (SheetUpdated (Job_Name j),
             Some (set_Sheet j
                     (Some {| ID := ID sheet;
                              OriginalLength := length;
                              Thickness := thickness;
                              Width := width;
                              Material := details;
                              CurrentBends := [] |})))
          end
        else (SheetNoMaterialSelected, job)
      | _, _, _ => (SheetInvalidDimensions, job)
      end
    end
  end.




(** A step passes the range checks of [AddBendStepToCurrentJob] against a
    sheet. *)
Definition passesRangeChecks (sheet : SheetMetal) (b : BendStep) : bool :=
  negb ((Position b <= F64.zero)%f64
        || (Position b >= OriginalLength sheet)%f64)
  && negb ((Radius b < minBendRadius)%f64 || (Radius b > maxBendRadius)%f64)
  && negb ((TargetAngle b < minBendAngle)%f64
           || (TargetAngle b > maxBendAngle)%f64).

Definition controllerSheet (st : Store * JobController) : option SheetMetal :=
  match currentJob (snd st) with
  | Some job => Sheet job
  | None => None
  end.

(** Definitions used to state the further properties. *)

Definition inMap {V : Type} (m : gomap V) (k : string) : bool :=
  match lookup m k with Some _ => true | None => false end.

Definition sheetIdentity (s : SheetMetal)
  : string * float64 * float64 * float64 * MaterialDetails :=
  (ID s, OriginalLength s, Thickness s, Width s, Material s).

Definition jobIdentity (st : Store * JobController)
  : option (string * option (string * float64 * float64 * float64
                             * MaterialDetails)) :=
  option_map (fun job => (Job_Name job, option_map sheetIdentity (Sheet job)))
             (currentJob (snd st)).

Definition validated (st : Store * JobController) : Prop :=
  allocated (fst st) (controllerSteps st)
  /\ forall sheet, controllerSheet st = Some sheet ->
       Forall (fun p => passesRangeChecks sheet (deref (fst st) p) = true)
              (controllerSteps st).


(** The application with the radius warning open for a bend of radius 1. *)
Definition appWithWarning : World :=
  showConfirmDialog "Radius Warning"%string
    (Some (addStepAction (F64.of_Z 50) (F64.of_Z 90) (F64.of_Z 1)
             BendDirectionUp))
    (Some bendAdditionCancelled) (appWithBend (F64.of_Z 1)).

(** A dimension is inside [[minSheetDimension, maxSheetDimension]], or is
    NaN. *)
Definition sheetDimensionOk (x : float64) : Prop :=
  ((x >= minSheetDimension)%f64 = true /\ (x <= maxSheetDimension)%f64 = true)
  \/ F64.is_nan x = true.

(** The sheet panel asking for a sheet of the given length, 2 mm thick and
    100 mm wide, of the first material of the default catalogue. *)
Definition panelWithLength (length : float64) : SheetPanel :=
  {| sheetLengthEditor := Some length;
     sheetThicknessEditor := Some (F64.of_Z 2);
     sheetWidthEditor := Some (F64.of_Z 100);
     selectedMaterialIdx := 0;
     materialNames := GetMaterialNames GetDefaultMaterials;
     materials := GetDefaultMaterials |}.

(* ================================================================== *)
(** * Properties *)

(** ** Comparisons of binary64 numbers *)

Section Float64Order.

Lemma SFcompare_antisym (x y : float64) :
  SFcompare y x = option_map CompOpp (SFcompare x y).
Proof.
  destruct x as [sx|sx| |sx mx ex], y as [sy|sy| |sy my ey]; simpl;
    try reflexivity;
    try (destruct sx; reflexivity);
    try (destruct sy; reflexivity);
    try (destruct sx, sy; reflexivity).
  change (Pos.compare_cont Eq my mx) with (Pos.compare my mx).
  change (Pos.compare_cont Eq mx my) with (Pos.compare mx my).
  rewrite (Z.compare_antisym ex ey), (Pos.compare_antisym mx my).
  destruct sx, sy; try reflexivity;
    destruct (ex ?= ey); simpl; try reflexivity;
    destruct (Pos.compare mx my); reflexivity.
Qed.

(** [x < y] excludes [y <= x], and [x <= y] excludes [y < x]. *)
Lemma lt_excludes_ge (x y : float64) :
  (x < y)%f64 = true -> (x >= y)%f64 = false.
Proof.
  unfold F64.lt, F64.ge, SFltb, SFleb.
  rewrite (SFcompare_antisym x y).
  destruct (SFcompare x y) as [[ | | ]|]; simpl; congruence.
Qed.

Lemma le_excludes_gt (x y : float64) :
  (x <= y)%f64 = true -> (x > y)%f64 = false.
Proof.
  unfold F64.le, F64.gt, SFltb, SFleb.
  rewrite (SFcompare_antisym x y).
  destruct (SFcompare x y) as [[ | | ]|]; simpl; congruence.
Qed.

Lemma gt_excludes_le (x y : float64) :
  (x > y)%f64 = true -> (x <= y)%f64 = false.
Proof. intro H. exact (lt_excludes_ge y x H). Qed.

Lemma ge_excludes_lt (x y : float64) :
  (x >= y)%f64 = true -> (x < y)%f64 = false.
Proof. intro H. exact (le_excludes_gt y x H). Qed.

End Float64Order.

(** The constants are the doubles the Go compiler produces. *)
Lemma constants_binary64 :
  maxBendRadius = S754_finite false 8796093022208000 (-44)
  /\ minBendAngle = S754_finite false 4503599627370496 (-52)
  /\ maxBendAngle = S754_finite false 6298002603900928 (-45)
  /\ half = S754_finite false 4503599627370496 (-53)
  /\ radiusEpsilon = S754_finite false 4722366482869645 (-72).
Proof. repeat split; vm_compute; reflexivity. Qed.

(** ** Sheet model *)

Lemma steel_is_default_material :
  In (SteelMaterial, steel) defaultMaterials.
Proof. left. reflexivity. Qed.

Lemma defaultSheet_constructed :
  NewSheetMetal "DefaultSheet-001"%string (F64.of_Z 300) (F64.of_Z 100)
    (F64.of_Z 2) steel = Ok defaultSheet.
Proof. vm_compute. reflexivity. Qed.

(** C6. For a sheet of thickness > 0, [GetMinBendRadius] is
    thickness * MinBendRadiusFactor when the factor is > 0 and
    thickness * 0.5 when the factor is <= 0; for thickness <= 0 it is 0. *)
Theorem GetMinBendRadius_by_cases (s : SheetMetal) :
  ((Thickness s > F64.zero)%f64 = true ->
   (MinBendRadiusFactor (Material s) > F64.zero)%f64 = true ->
   GetMinBendRadius s = (Thickness s * MinBendRadiusFactor (Material s))%f64)
  /\ ((Thickness s > F64.zero)%f64 = true ->
      (MinBendRadiusFactor (Material s) <= F64.zero)%f64 = true ->
      GetMinBendRadius s = (Thickness s * F64.of_ratio 1 2)%f64)
  /\ ((Thickness s <= F64.zero)%f64 = true ->
      GetMinBendRadius s = F64.zero).
Proof.
  unfold GetMinBendRadius. repeat split.
  - intros Ht Hf.
    rewrite (gt_excludes_le _ _ Ht), (gt_excludes_le _ _ Hf). reflexivity.
  - intros Ht Hf.
    rewrite (gt_excludes_le _ _ Ht), Hf. reflexivity.
  - intros Ht. rewrite Ht. reflexivity.
Qed.

Lemma GetMinBendRadius_by_cases_witness :
  GetMinBendRadius defaultSheet = F64.of_Z 3
  /\ GetMinBendRadius sheetWithoutFactor = F64.of_Z 1
  /\ GetMinBendRadius sheetWithoutThickness = F64.zero.
Proof.
  split; [| split].
  - rewrite (proj1 (GetMinBendRadius_by_cases defaultSheet)
               eq_refl eq_refl).
    vm_compute. reflexivity.
  - rewrite (proj1 (proj2 (GetMinBendRadius_by_cases sheetWithoutFactor))
               eq_refl eq_refl).
    vm_compute. reflexivity.
  - exact (proj2 (proj2 (GetMinBendRadius_by_cases sheetWithoutThickness))
             eq_refl).
Defined.

(** A non-positive dimension is rejected, whatever the id. *)
Lemma NewSheetMetal_rejects_dimensions
    (id : string) (length width thickness : float64) (m : MaterialDetails) :
  (length <= F64.zero)%f64 = true \/ (width <= F64.zero)%f64 = true
  \/ (thickness <= F64.zero)%f64 = true ->
  NewSheetMetal id length width thickness m
  = Err (ErrSheetDimensions length width thickness).
Proof.
  unfold NewSheetMetal. intros [H | [H | H]]; rewrite H;
    rewrite ?orb_true_r; reflexivity.
Qed.

(** A sheet that is returned carries the arguments, has positive dimensions
    and a named material, and is flat. *)
Lemma NewSheetMetal_success
    (id : string) (length width thickness : float64) (m : MaterialDetails)
    (s : SheetMetal) :
  NewSheetMetal id length width thickness m = Ok s ->
  s = {| ID := id; OriginalLength := length; Thickness := thickness;
         Width := width; Material := m; CurrentBends := [] |}
  /\ (length <= F64.zero)%f64 = false
  /\ (width <= F64.zero)%f64 = false
  /\ (thickness <= F64.zero)%f64 = false
  /\ Material_Name m <> EmptyString.
Proof.
  unfold NewSheetMetal.
  destruct (length <= F64.zero)%f64; [discriminate |].
  destruct (width <= F64.zero)%f64; [discriminate |].
  destruct (thickness <= F64.zero)%f64; [discriminate |].
  simpl. destruct (String.eqb_spec (Material_Name m) EmptyString) as [E | E];
    [discriminate |].
  intro H. injection H as <-. repeat split; assumption.
Qed.

(** C9. [NewSheetMetal] applied to the empty id, positive dimensions and a
    named material returns a sheet, with the empty id, and no error. *)
Theorem NewSheetMetal_accepts_empty_id :
  NewSheetMetal EmptyString (F64.of_Z 300) (F64.of_Z 100) (F64.of_Z 2) steel
  = Ok {| ID := EmptyString;
          OriginalLength := F64.of_Z 300;
          Thickness := F64.of_Z 2;
          Width := F64.of_Z 100;
          Material := steel;
          CurrentBends := [] |}.
Proof. vm_compute. reflexivity. Qed.

(** The constructor of the v0.4.0 layout does reject the empty id. *)
Lemma Refactored_NewSheetMetal_rejects_empty_id
    (length width thickness : float64) (m : MaterialDetails) :
  Refactored.NewSheetMetal EmptyString length width thickness m
  = Err ErrSheetIDEmpty.
Proof. reflexivity. Qed.

(** ** Job controller: the range checks of a bend *)

(** What a successful call does to the store and the controller. *)
Lemma AddBendStep_accepts (h : Store) (jc : JobController) (job : Job)
    (sheet : SheetMetal) (pos angle radius : float64) (dir : BendDirection) :
  currentJob jc = Some job -> Sheet job = Some sheet ->
  (pos <= F64.zero)%f64 = false ->
  (pos >= OriginalLength sheet)%f64 = false ->
  (radius < minBendRadius)%f64 = false ->
  (radius > maxBendRadius)%f64 = false ->
  (angle < minBendAngle)%f64 = false ->
  (angle > maxBendAngle)%f64 = false ->
  AddBendStepToCurrentJob h jc pos angle radius dir
  = (Ok (next h),
     (snd (new h {| SequenceOrder := len (Steps job) + 1;
                    Position := pos; TargetAngle := angle;
                    Radius := radius; Direction := dir |}),
      {| currentJob := Some (set_Steps job (Steps job ++ [next h])) |})).
Proof.
  intros Hj Hs H1 H2 H3 H4 H5 H6. unfold AddBendStepToCurrentJob.
  rewrite Hj, Hs, H1, H2, H3, H4, H5, H6. reflexivity.
Qed.

(** C2. With a current job and a sheet, [AddBendStepToCurrentJob] returns a
    range error and leaves store and job as they were when position <= 0,
    position >= OriginalLength, radius < 0, radius > 500, angle < 1 or
    angle > 179; with 0 < position < OriginalLength, 0 <= radius <= 500
    and 1 <= angle <= 179 it returns no error and appends the step. *)
Theorem AddBendStep_range_checks (h : Store) (jc : JobController) (job : Job)
    (sheet : SheetMetal) (pos angle radius : float64) (dir : BendDirection) :
  currentJob jc = Some job -> Sheet job = Some sheet ->
  ((pos <= F64.zero)%f64 = true
   \/ (pos >= OriginalLength sheet)%f64 = true
   \/ (radius < F64.zero)%f64 = true
   \/ (radius > F64.of_Z 500)%f64 = true
   \/ (angle < F64.of_Z 1)%f64 = true
   \/ (angle > F64.of_Z 179)%f64 = true ->
   exists e,
     isRangeError e = true
     /\ AddBendStepToCurrentJob h jc pos angle radius dir = (Err e, (h, jc)))
  /\ ((pos > F64.zero)%f64 = true ->
      (pos < OriginalLength sheet)%f64 = true ->
      (radius >= F64.zero)%f64 = true ->
      (radius <= F64.of_Z 500)%f64 = true ->
      (angle >= F64.of_Z 1)%f64 = true ->
      (angle <= F64.of_Z 179)%f64 = true ->
      exists p h' job',
        AddBendStepToCurrentJob h jc pos angle radius dir
        = (Ok p, (h', {| currentJob := Some job' |}))
        /\ Steps job' = Steps job ++ [p]
        /\ Sheet job' = Some sheet
        /\ deref h' p = {| SequenceOrder := len (Steps job) + 1;
                           Position := pos; TargetAngle := angle;
                           Radius := radius; Direction := dir |}).
Proof.
  intros Hj Hs. split.
  - intros Hbad. unfold AddBendStepToCurrentJob. rewrite Hj, Hs.
    change minBendRadius with F64.zero.
    change maxBendRadius with (F64.of_Z 500).
    change minBendAngle with (F64.of_Z 1).
    change maxBendAngle with (F64.of_Z 179).
    destruct ((pos <= F64.zero)%f64 || (pos >= OriginalLength sheet)%f64)
      eqn:Epos.
    { eexists. split; [| reflexivity]. reflexivity. }
    destruct ((radius < F64.zero)%f64 || (radius > F64.of_Z 500)%f64)
      eqn:Erad.
    { eexists. split; [| reflexivity]. reflexivity. }
    destruct ((angle < F64.of_Z 1)%f64 || (angle > F64.of_Z 179)%f64)
      eqn:Eang.
    { eexists. split; [| reflexivity]. reflexivity. }
    apply orb_false_elim in Epos, Erad, Eang.
    destruct Epos as [P1 P2], Erad as [R1 R2], Eang as [A1 A2].
    destruct Hbad as [H | [H | [H | [H | [H | H]]]]]; congruence.
  - intros P1 P2 R1 R2 A1 A2.
    exists (next h). eexists. eexists. split.
    + apply (AddBendStep_accepts h jc job sheet); try assumption.
      * apply gt_excludes_le; assumption.
      * apply lt_excludes_ge; assumption.
      * apply ge_excludes_lt; assumption.
      * apply le_excludes_gt; assumption.
      * apply ge_excludes_lt; assumption.
      * apply le_excludes_gt; assumption.
    + simpl. repeat split; try assumption.
      unfold deref. simpl. rewrite Nat.eqb_refl. reflexivity.
Qed.

Lemma defaultJob_constructed :
  NewJob "DefaultJob-001"%string (Some defaultSheet) = Ok defaultJob.
Proof. reflexivity. Qed.

Lemma AddBendStep_range_checks_witness :
  (exists e,
     isRangeError e = true
     /\ AddBendStepToCurrentJob emptyStore defaultController
          (F64.of_Z 300) (F64.of_Z 90) (F64.of_Z 1) BendDirectionUp
        = (Err e, (emptyStore, defaultController)))
  /\ (exists p h' job',
        AddBendStepToCurrentJob emptyStore defaultController
          (F64.of_Z 50) (F64.of_Z 90) (F64.of_ratio 35 10) BendDirectionUp
        = (Ok p, (h', {| currentJob := Some job' |}))
        /\ Steps job' = Steps defaultJob ++ [p]
        /\ Sheet job' = Some defaultSheet
        /\ deref h' p = {| SequenceOrder := len (Steps defaultJob) + 1;
                           Position := F64.of_Z 50;
                           TargetAngle := F64.of_Z 90;
                           Radius := F64.of_ratio 35 10;
                           Direction := BendDirectionUp |}).
Proof.
  split.
  - apply (proj1 (AddBendStep_range_checks emptyStore defaultController
                    defaultJob defaultSheet (F64.of_Z 300) (F64.of_Z 90)
                    (F64.of_Z 1) BendDirectionUp eq_refl eq_refl)).
    right; left. vm_compute. reflexivity.
  - apply (proj2 (AddBendStep_range_checks emptyStore defaultController
                    defaultJob defaultSheet (F64.of_Z 50) (F64.of_Z 90)
                    (F64.of_ratio 35 10) BendDirectionUp eq_refl eq_refl));
      vm_compute; reflexivity.
Defined.

(** ** Job controller: clearing the steps *)

(** C8. [ClearBendStepsFromCurrentJob] fails exactly when there is no
    current job; otherwise it succeeds, empties the step list and resets
    the job's sheet to the flat state.  Clearing twice is clearing once, so
    the call on an already empty job succeeds and leaves the sheet flat. *)
Theorem ClearBendSteps_clears (jc : JobController) :
  (fst (ClearBendStepsFromCurrentJob jc) <> None <-> currentJob jc = None)
  /\ (currentJob jc = None ->
      ClearBendStepsFromCurrentJob jc = (Some ErrNoCurrentJobToClear, jc))
  /\ (forall job, currentJob jc = Some job ->
      exists job',
        ClearBendStepsFromCurrentJob jc = (None, {| currentJob := Some job' |})
        /\ Steps job' = []
        /\ Job_Name job' = Job_Name job
        /\ Sheet job' = option_map ResetForm (Sheet job)
        /\ (forall s', Sheet job' = Some s' -> CurrentBends s' = []))
  /\ ClearBendStepsFromCurrentJob (snd (ClearBendStepsFromCurrentJob jc))
     = ClearBendStepsFromCurrentJob jc
  /\ (forall job, currentJob jc = Some job -> Steps job = [] ->
      exists job',
        ClearBendStepsFromCurrentJob jc = (None, {| currentJob := Some job' |})
        /\ Steps job' = []
        /\ (forall s', Sheet job' = Some s' -> CurrentBends s' = [])).
Proof.
  destruct jc as [[job |]]; unfold ClearBendStepsFromCurrentJob; simpl.
  - split; [| split; [| split; [| split]]].
    + split; [intro H; exfalso; apply H; reflexivity | discriminate].
    + discriminate.
    + intros job0 E. injection E as <-.
      eexists. split; [reflexivity |].
      destruct (Sheet job) as [s |] eqn:Es; simpl; rewrite ?Es;
        repeat split; try reflexivity; intros s' E';
        [injection E' as <-; reflexivity | discriminate].
    + destruct job as [name [s |] steps]; reflexivity.
    + intros job0 E _. injection E as <-.
      eexists. split; [reflexivity |].
      destruct (Sheet job) as [s |] eqn:Es; simpl; rewrite ?Es;
        repeat split; try reflexivity; intros s' E';
        [injection E' as <-; reflexivity | discriminate].
  - split; [| split; [| split; [| split]]];
      try reflexivity; try discriminate.
    split; [reflexivity | discriminate].
Qed.

Lemma ClearBendSteps_clears_witness :
  (exists job',
     ClearBendStepsFromCurrentJob defaultController
     = (None, {| currentJob := Some job' |})
     /\ Steps job' = []
     /\ Job_Name job' = Job_Name defaultJob
     /\ Sheet job' = option_map ResetForm (Sheet defaultJob)
     /\ (forall s', Sheet job' = Some s' -> CurrentBends s' = []))
  /\ ClearBendStepsFromCurrentJob NewJobController
     = (Some ErrNoCurrentJobToClear, NewJobController).
Proof.
  split.
  - exact (proj1 (proj2 (proj2 (ClearBendSteps_clears defaultController)))
             defaultJob eq_refl).
  - exact (proj1 (proj2 (ClearBendSteps_clears NewJobController)) eq_refl).
Defined.

(** ** Press brake: replaying a job *)

Lemma replay_app (h : Store) (steps : list addr) (bends : list BendStep) :
  replay h steps bends = bends ++ stepValues h steps.
Proof.
  revert bends. induction steps as [| p rest IH]; intro bends; simpl.
  - symmetry. apply app_nil_r.
  - rewrite IH, <- app_assoc. reflexivity.
Qed.

Lemma ProcessJob_succeeds (h : Store) (pb : PressBrake) (job : Job)
    (sheet : SheetMetal) (punch : Punch) (die : Die) :
  Sheet job = Some sheet ->
  currentPunch pb = Some punch -> currentDie pb = Some die ->
  ProcessJob h pb (Some job)
  = (Ok (formedSheet h job sheet),
     (withPartBent pb, Some (set_Sheet job (Some (formedSheet h job sheet))))).
Proof.
  intros Hs Hp Hd. unfold ProcessJob. rewrite Hs, Hp, Hd.
  unfold formedSheet, withPartBent. rewrite replay_app, Hp, Hd.
  reflexivity.
Qed.

(** What made a call succeed. *)
Lemma ProcessJob_Ok_inv (h : Store) (pb pb' : PressBrake) (j j' : option Job)
    (s : SheetMetal) :
  ProcessJob h pb j = (Ok s, (pb', j')) ->
  exists job sheet punch die,
    j = Some job /\ Sheet job = Some sheet
    /\ currentPunch pb = Some punch /\ currentDie pb = Some die.
Proof.
  unfold ProcessJob. destruct j as [job |]; [| discriminate].
  destruct (Sheet job) as [sheet |] eqn:Es; [| discriminate].
  destruct (currentPunch pb) as [punch |] eqn:Ep; [| discriminate].
  destruct (currentDie pb) as [die |] eqn:Ed; [| discriminate].
  intros _. exists job, sheet, punch, die. repeat split; assumption.
Qed.

(** Repeated runs keep the job's steps and a sheet in the job, and keep the
    tooling. *)
Lemma ProcessJob_times_inv (n : nat) (h : Store) (pb : PressBrake) (job : Job)
    (sheet : SheetMetal) (punch : Punch) (die : Die) :
  Sheet job = Some sheet ->
  currentPunch pb = Some punch -> currentDie pb = Some die ->
  exists pbn jobn sheetn,
    ProcessJob_times n h pb (Some job) = (pbn, Some jobn)
    /\ Sheet jobn = Some sheetn /\ Steps jobn = Steps job
    /\ currentPunch pbn = Some punch /\ currentDie pbn = Some die.
Proof.
  revert pb job sheet. induction n as [| n IH]; intros pb job sheet Hs Hp Hd.
  - exists pb, job, sheet. repeat split; assumption.
  - cbn [ProcessJob_times].
    rewrite (ProcessJob_succeeds h pb job sheet punch die Hs Hp Hd).
    cbn [fst snd].
    destruct (IH (withPartBent pb)
                (set_Sheet job (Some (formedSheet h job sheet)))
                (formedSheet h job sheet) eq_refl Hp Hd)
      as (pbn & jobn & sheetn & E & Hsn & Hst & Hpn & Hdn).
    exists pbn, jobn, sheetn. repeat split; assumption.
Qed.

(** C3. For a job with a sheet and a press brake with punch and die set,
    [ProcessJob] succeeds and leaves in the sheet's [CurrentBends] the values
    of the job's steps in their stored order (the i-th bend is the value of
    [Steps[i]]); the same holds for the call made after any number of
    earlier calls on the same job. *)
Theorem ProcessJob_replays_steps (h : Store) (pb : PressBrake) (job : Job)
    (sheet : SheetMetal) (punch : Punch) (die : Die) (n : nat) :
  Sheet job = Some sheet ->
  currentPunch pb = Some punch -> currentDie pb = Some die ->
  exists sheet' pb' job',
    ProcessJob h (fst (ProcessJob_times n h pb (Some job)))
                 (snd (ProcessJob_times n h pb (Some job)))
    = (Ok sheet', (pb', Some job'))
    /\ CurrentBends sheet' = stepValues h (Steps job)
    /\ (forall i, nth_error (CurrentBends sheet') i
                  = option_map (deref h) (nth_error (Steps job) i))
    /\ Sheet job' = Some sheet'
    /\ Steps job' = Steps job.
Proof.
  intros Hs Hp Hd.
  destruct (ProcessJob_times_inv n h pb job sheet punch die Hs Hp Hd)
    as (pbn & jobn & sheetn & E & Hsn & Hst & Hpn & Hdn).
  rewrite E. cbn [fst snd].
  rewrite (ProcessJob_succeeds h pbn jobn sheetn punch die Hsn Hpn Hdn).
  eexists. eexists. eexists. split; [reflexivity |].
  simpl. rewrite Hst. repeat split.
  intro i. unfold stepValues. apply nth_error_map.
Qed.

Lemma twoBendsJob_steps : Steps twoBendsJob = [0%nat; 1%nat].
Proof. vm_compute. reflexivity. Qed.

Lemma ProcessJob_replays_steps_witness :
  exists sheet' pb' job',
    ProcessJob (fst twoBends)
      (fst (ProcessJob_times 2 (fst twoBends) defaultPressBrake
              (Some twoBendsJob)))
      (snd (ProcessJob_times 2 (fst twoBends) defaultPressBrake
              (Some twoBendsJob)))
    = (Ok sheet', (pb', Some job'))
    /\ CurrentBends sheet' = stepValues (fst twoBends) (Steps twoBendsJob)
    /\ (forall i, nth_error (CurrentBends sheet') i
                  = option_map (deref (fst twoBends))
                      (nth_error (Steps twoBendsJob) i))
    /\ Sheet job' = Some sheet'
    /\ Steps job' = Steps twoBendsJob.
Proof.
  exact (ProcessJob_replays_steps (fst twoBends) defaultPressBrake twoBendsJob
           defaultSheet defaultPunch defaultDie 2 eq_refl eq_refl eq_refl).
Defined.

(** C4. [ProcessJob] returns an error and changes nothing when the job is
    nil, the job's sheet is nil, or the punch or the die is unset; and every
    call that returns an error leaves the press brake (its counter included)
    and the job (its steps and its sheet's bends included) unchanged. *)
Theorem ProcessJob_failure_changes_nothing (h : Store) (pb : PressBrake)
    (j : option Job) :
  (j = None -> ProcessJob h pb j = (Err ErrJobOrSheetNil, (pb, j)))
  /\ (forall job, j = Some job -> Sheet job = None ->
      ProcessJob h pb j = (Err ErrJobOrSheetNil, (pb, j)))
  /\ (forall job sheet, j = Some job -> Sheet job = Some sheet ->
      currentPunch pb = None \/ currentDie pb = None ->
      ProcessJob h pb j = (Err ErrToolingNotSet, (pb, j)))
  /\ (forall e pb' j', ProcessJob h pb j = (Err e, (pb', j')) ->
      pb' = pb /\ j' = j
      /\ totalPartsBentSession pb' = totalPartsBentSession pb
      /\ option_map Steps j' = option_map Steps j
      /\ option_map Sheet j' = option_map Sheet j).
Proof.
  split; [| split; [| split]].
  - intros ->. reflexivity.
  - intros job -> Hs. unfold ProcessJob. rewrite Hs. reflexivity.
  - intros job sheet -> Hs Ht. unfold ProcessJob. rewrite Hs.
    destruct Ht as [Ht | Ht]; rewrite Ht; [reflexivity |].
    destruct (currentPunch pb); reflexivity.
  - intros e pb' j'. unfold ProcessJob.
    destruct j as [job |];
      [destruct (Sheet job) as [sheet |];
       [destruct (currentPunch pb) as [punch |];
        [destruct (currentDie pb) as [die |] |] |] |];
      intro H; try discriminate; injection H as _ <- <-;
      repeat split; reflexivity.
Qed.

Lemma ProcessJob_failure_changes_nothing_witness :
  ProcessJob (fst twoBends) defaultPressBrake None
  = (Err ErrJobOrSheetNil, (defaultPressBrake, None))
  /\ ProcessJob (fst twoBends) defaultPressBrake
       (Some (set_Sheet twoBendsJob None))
     = (Err ErrJobOrSheetNil,
        (defaultPressBrake, Some (set_Sheet twoBendsJob None)))
  /\ ProcessJob (fst twoBends) pressBrakeWithoutDie (Some twoBendsJob)
     = (Err ErrToolingNotSet, (pressBrakeWithoutDie, Some twoBendsJob)).
Proof.
  split; [| split].
  - exact (proj1 (ProcessJob_failure_changes_nothing (fst twoBends)
                    defaultPressBrake None) eq_refl).
  - exact (proj1 (proj2 (ProcessJob_failure_changes_nothing (fst twoBends)
                           defaultPressBrake
                           (Some (set_Sheet twoBendsJob None))))
             (set_Sheet twoBendsJob None) eq_refl eq_refl).
  - exact (proj1 (proj2 (proj2 (ProcessJob_failure_changes_nothing
                                  (fst twoBends) pressBrakeWithoutDie
                                  (Some twoBendsJob))))
             twoBendsJob defaultSheet eq_refl eq_refl (or_intror eq_refl)).
Defined.

(** C10. A call of [ProcessJob] that succeeds leaves the job's step list as
    it was: the same pointers, designating the same step values in the store,
    which the call does not write.  The sheet's bends are values, not
    pointers to the steps: overwriting one of them afterwards changes neither
    the job's step list nor a step object. *)
Theorem ProcessJob_preserves_steps (h : Store) (pb pb' : PressBrake)
    (j j' : option Job) (s : SheetMetal) :
  ProcessJob h pb j = (Ok s, (pb', j')) ->
  exists job job',
    j = Some job /\ j' = Some job'
    /\ Steps job' = Steps job
    /\ List.length (Steps job') = List.length (Steps job)
    /\ stepValues h (Steps job') = stepValues h (Steps job)
    /\ Job_Name job' = Job_Name job
    /\ Sheet job' = Some s
    /\ (forall i b bends',
          setBend (CurrentBends s) i b = Some bends' ->
          let job'' := set_Sheet job' (Some (set_CurrentBends s bends')) in
          Steps job'' = Steps job
          /\ stepValues h (Steps job'') = stepValues h (Steps job)).
Proof.
  intro H.
  destruct (ProcessJob_Ok_inv h pb pb' j j' s H)
    as (job & sheet & punch & die & -> & Hs & Hp & Hd).
  rewrite (ProcessJob_succeeds h pb job sheet punch die Hs Hp Hd) in H.
  injection H as <- <- <-.
  exists job. eexists. split; [reflexivity |]. split; [reflexivity |].
  simpl. repeat split.
Qed.

Lemma ProcessJob_preserves_steps_witness :
  exists job job',
    Some twoBendsJob = Some job
    /\ snd (snd (ProcessJob (fst twoBends) defaultPressBrake
                   (Some twoBendsJob))) = Some job'
    /\ Steps job' = Steps job.
Proof.
  destruct (ProcessJob_preserves_steps (fst twoBends) defaultPressBrake
              (fst (snd (ProcessJob (fst twoBends) defaultPressBrake
                           (Some twoBendsJob))))
              (Some twoBendsJob)
              (snd (snd (ProcessJob (fst twoBends) defaultPressBrake
                           (Some twoBendsJob))))
              (formedSheet (fst twoBends) twoBendsJob defaultSheet)
              eq_refl)
    as (job & job' & Ej & Ej' & Est & _).
  exists job, job'. repeat split; assumption.
Defined.

(** ** Press brake: the session counter *)

Lemma incr_below_max (z : Z) :
  Int.in_range z -> z < Int.max_int -> Int.incr z = z + 1.
Proof.
  unfold Int.in_range, Int.incr, Int.wrap, Int.min_int, Int.max_int.
  intros [Hlo Hhi] Hlt.
  rewrite Z.mod_small; lia.
Qed.

Lemma incr_at_max : Int.incr Int.max_int = Int.min_int.
Proof. vm_compute. reflexivity. Qed.

Lemma incr_in_range (z : Z) : Int.in_range (Int.incr z).
Proof.
  unfold Int.in_range, Int.incr, Int.wrap, Int.min_int, Int.max_int.
  pose proof (Z.mod_pos_bound (z + 1 + 2 ^ 63) (2 ^ 64) ltac:(lia)). lia.
Qed.

Lemma ProcessJob_counter (h : Store) (pb : PressBrake) (j : option Job) :
  totalPartsBentSession (fst (snd (ProcessJob h pb j)))
  = if is_ok (fst (ProcessJob h pb j))
    then Int.incr (totalPartsBentSession pb)
    else totalPartsBentSession pb.
Proof.
  unfold ProcessJob.
  destruct j as [job |]; [| reflexivity].
  destruct (Sheet job); [| reflexivity].
  destruct (currentPunch pb); [| reflexivity].
  destruct (currentDie pb); reflexivity.
Qed.

(** At the largest [int] the increment wraps around: the successful call
    takes the counter from 9223372036854775807 to -9223372036854775808. *)
Lemma counter_wraps_at_max_int :
  Int.in_range (totalPartsBentSession pressBrakeAtMax)
  /\ is_ok (fst (ProcessJob emptyStore pressBrakeAtMax (Some defaultJob)))
     = true
  /\ totalPartsBentSession
       (fst (snd (ProcessJob emptyStore pressBrakeAtMax (Some defaultJob))))
     = -9223372036854775808
  /\ ~ every_success_adds_one.
Proof.
  split; [| split; [| split]].
  - vm_compute. split; discriminate.
  - reflexivity.
  - vm_compute. reflexivity.
  - intro H.
    specialize (H emptyStore pressBrakeAtMax (Some defaultJob)
                  (formedSheet emptyStore defaultJob defaultSheet)
                  (withPartBent pressBrakeAtMax)
                  (Some (set_Sheet defaultJob
                           (Some (formedSheet emptyStore defaultJob
                                    defaultSheet))))).
    assert (R : Int.in_range (totalPartsBentSession pressBrakeAtMax))
      by (vm_compute; split; discriminate).
    specialize (H R eq_refl). vm_compute in H. discriminate.
Qed.

(** C5, amended.  On a press brake whose counter is below the largest
    [int], a successful [ProcessJob] adds exactly one to
    [totalPartsBentSession], whatever the job's steps; two successful calls
    in a row add exactly two when the counter is below the largest [int]
    minus one; and no operation of the press brake (tool selection,
    failing or successful run) lowers a counter that is below the largest
    [int]. *)
Theorem ProcessJob_counts_one_part (h : Store) (pb : PressBrake) :
  Int.in_range (totalPartsBentSession pb) ->
  (forall j s pb' j',
     totalPartsBentSession pb < Int.max_int ->
     ProcessJob h pb j = (Ok s, (pb', j')) ->
     totalPartsBentSession pb' = totalPartsBentSession pb + 1)
  /\ (forall j1 s1 pb1 j1' h2 j2 s2 pb2 j2',
        totalPartsBentSession pb < Int.max_int - 1 ->
        ProcessJob h pb j1 = (Ok s1, (pb1, j1')) ->
        ProcessJob h2 pb1 j2 = (Ok s2, (pb2, j2')) ->
        totalPartsBentSession pb2 = totalPartsBentSession pb + 2)
  /\ (forall op,
        totalPartsBentSession pb < Int.max_int ->
        totalPartsBentSession pb <= totalPartsBentSession (applyOp h op pb)).
Proof.
  intro R.
  assert (One : forall h0 pb0 j s pb' j',
             Int.in_range (totalPartsBentSession pb0) ->
             totalPartsBentSession pb0 < Int.max_int ->
             ProcessJob h0 pb0 j = (Ok s, (pb', j')) ->
             totalPartsBentSession pb' = totalPartsBentSession pb0 + 1).
  { intros h0 pb0 j s pb' j' R0 Hlt H.
    pose proof (ProcessJob_counter h0 pb0 j) as C.
    rewrite H in C. simpl in C. rewrite C.
    apply incr_below_max; assumption. }
  split; [| split].
  - intros j s pb' j' Hlt H. exact (One h pb j s pb' j' R Hlt H).
  - intros j1 s1 pb1 j1' h2 j2 s2 pb2 j2' Hlt H1 H2.
    pose proof (One h pb j1 s1 pb1 j1' R ltac:(lia) H1) as E1.
    assert (R1 : Int.in_range (totalPartsBentSession pb1)).
    { unfold Int.in_range in *. unfold Int.max_int in *. lia. }
    pose proof (One h2 pb1 j2 s2 pb2 j2' R1 ltac:(lia) H2) as E2.
    lia.
  - intros op Hlt. destruct op as [p | d | j]; simpl; try lia.
    rewrite ProcessJob_counter.
    destruct (is_ok (fst (ProcessJob h pb j))); [| lia].
    rewrite incr_below_max by assumption. lia.
Qed.

Lemma ProcessJob_counts_one_part_witness :
  totalPartsBentSession
    (fst (snd (ProcessJob (fst twoBends) defaultPressBrake
                 (Some twoBendsJob)))) = 0 + 1
  /\ totalPartsBentSession
       (fst (ProcessJob_times 2 (fst twoBends) defaultPressBrake
               (Some twoBendsJob))) = 0 + 2
  /\ 0 <= totalPartsBentSession
            (applyOp emptyStore (OpSetDie defaultDie) defaultPressBrake).
Proof.
  assert (R : Int.in_range (totalPartsBentSession defaultPressBrake))
    by (vm_compute; split; discriminate).
  pose proof (ProcessJob_counts_one_part (fst twoBends) defaultPressBrake R)
    as (One & Two & _).
  pose proof (ProcessJob_counts_one_part emptyStore defaultPressBrake R)
    as (_ & _ & Mono).
  split; [| split].
  - exact (One (Some twoBendsJob) _ _ _ eq_refl eq_refl).
  - exact (Two (Some twoBendsJob) _ _ _ (fst twoBends)
             (snd (snd (ProcessJob (fst twoBends) defaultPressBrake
                          (Some twoBendsJob))))
             _ _ _ eq_refl eq_refl eq_refl).
  - exact (Mono (OpSetDie defaultDie) eq_refl).
Defined.

(** The wrapped counter is what a run of successful calls reaches: after
    [n] of them on a fresh press brake the counter is [n] wrapped. *)
Lemma incr_wrap (z : Z) : Int.incr (Int.wrap z) = Int.wrap (z + 1).
Proof.
  unfold Int.incr, Int.wrap.
  replace ((z + 2 ^ 63) mod 2 ^ 64 - 2 ^ 63 + 1 + 2 ^ 63)
    with ((z + 2 ^ 63) mod 2 ^ 64 + 1) by lia.
  rewrite Z.add_mod_idemp_l by lia.
  replace (z + 2 ^ 63 + 1) with (z + 1 + 2 ^ 63) by lia. reflexivity.
Qed.

Lemma ProcessJob_times_counter (n : nat) (h : Store) (pb : PressBrake)
    (job : Job) (sheet : SheetMetal) (punch : Punch) (die : Die) (z : Z) :
  Sheet job = Some sheet ->
  currentPunch pb = Some punch -> currentDie pb = Some die ->
  totalPartsBentSession pb = Int.wrap z ->
  totalPartsBentSession (fst (ProcessJob_times n h pb (Some job)))
  = Int.wrap (z + Z.of_nat n).
Proof.
  revert pb job sheet z.
  induction n as [| n IH]; intros pb job sheet z Hs Hp Hd Hz.
  - cbn [ProcessJob_times fst]. rewrite Hz. f_equal. lia.
  - cbn [ProcessJob_times].
    rewrite (ProcessJob_succeeds h pb job sheet punch die Hs Hp Hd).
    cbn [fst snd].
    rewrite (IH (withPartBent pb)
               (set_Sheet job (Some (formedSheet h job sheet)))
               (formedSheet h job sheet) (z + 1) eq_refl Hp Hd).
    + f_equal. lia.
    + cbn [withPartBent totalPartsBentSession]. rewrite Hz.
      apply incr_wrap.
Qed.

Lemma counter_reaches_max_int :
  totalPartsBentSession
    (fst (ProcessJob_times (Z.to_nat Int.max_int) emptyStore
            defaultPressBrake (Some defaultJob)))
  = Int.max_int.
Proof.
  rewrite (ProcessJob_times_counter (Z.to_nat Int.max_int) emptyStore
             defaultPressBrake defaultJob defaultSheet defaultPunch
             defaultDie 0 eq_refl eq_refl eq_refl eq_refl).
  rewrite Z2Nat.id by (unfold Int.max_int; lia).
  reflexivity.
Qed.

(** ** Job controller: the sequence numbers *)

(** A call either fails and changes nothing, or allocates the step and
    appends its address. *)
Lemma AddBendStep_cases (h : Store) (jc : JobController)
    (pos angle radius : float64) (dir : BendDirection) :
  (exists e,
     AddBendStepToCurrentJob h jc pos angle radius dir = (Err e, (h, jc)))
  \/ (exists job,
        currentJob jc = Some job
        /\ AddBendStepToCurrentJob h jc pos angle radius dir
           = (Ok (next h),
              (snd (new h {| SequenceOrder := len (Steps job) + 1;
                             Position := pos; TargetAngle := angle;
                             Radius := radius; Direction := dir |}),
               {| currentJob :=
                    Some (set_Steps job (Steps job ++ [next h])) |}))).
Proof.
  unfold AddBendStepToCurrentJob.
  destruct (currentJob jc) as [job |] eqn:Ej; [| left; eexists; reflexivity].
  destruct (Sheet job) as [sheet |]; [| left; eexists; reflexivity].
  destruct ((pos <= F64.zero)%f64 || (pos >= OriginalLength sheet)%f64);
    [left; eexists; reflexivity |].
  destruct ((radius < minBendRadius)%f64 || (radius > maxBendRadius)%f64);
    [left; eexists; reflexivity |].
  destruct ((angle < minBendAngle)%f64 || (angle > maxBendAngle)%f64);
    [left; eexists; reflexivity |].
  right. exists job. split; reflexivity.
Qed.

Lemma deref_new_old (h : Store) (b : BendStep) (p : addr) :
  (p < next h)%nat -> deref (snd (new h b)) p = deref h p.
Proof.
  intro Hp. unfold deref, new. simpl.
  destruct (Nat.eqb_spec p (next h)) as [E | _]; [lia | reflexivity].
Qed.

Lemma deref_new_fresh (h : Store) (b : BendStep) :
  deref (snd (new h b)) (next h) = b.
Proof. unfold deref, new. simpl. rewrite Nat.eqb_refl. reflexivity. Qed.

Lemma dense_nil (h : Store) : dense h [].
Proof. intros [| i] p H; discriminate. Qed.

(** Appending a freshly allocated step that carries the next number keeps
    the list dense. *)
Lemma dense_snoc (h : Store) (steps : list addr) (b : BendStep) :
  dense h steps -> allocated h steps ->
  SequenceOrder b = len steps + 1 ->
  dense (snd (new h b)) (steps ++ [next h])
  /\ allocated (snd (new h b)) (steps ++ [next h]).
Proof.
  intros Hd Ha Hb. split.
  - intros i p Hi.
    destruct (Nat.lt_ge_cases i (List.length steps)) as [Hlt | Hge].
    + rewrite nth_error_app1 in Hi by assumption.
      assert (Hp : (p < next h)%nat).
      { unfold allocated in Ha. rewrite Forall_forall in Ha.
        apply Ha. eapply nth_error_In; eassumption. }
      rewrite deref_new_old by assumption. apply Hd; assumption.
    + rewrite nth_error_app2 in Hi by assumption.
      destruct (i - List.length steps)%nat as [| k] eqn:Ek.
      * simpl in Hi. injection Hi as <-.
        rewrite deref_new_fresh, Hb. unfold len.
        assert (i = List.length steps) by lia. subst i. reflexivity.
      * simpl in Hi. destruct k; discriminate.
  - unfold allocated in *. apply Forall_app. split.
    + eapply Forall_impl; [| exact Ha]. simpl. intros a Hlt. lia.
    + constructor; [simpl; lia | constructor].
Qed.

Lemma stepOp_sequenced (op : ControllerOp) (st : Store * JobController) :
  sequenced st -> sequenced (stepOp op st).
Proof.
  destruct st as [h jc]. intros [Hd Ha].
  destruct op as [pos angle radius dir |]; cbn [stepOp fst snd].
  - destruct (AddBendStep_cases h jc pos angle radius dir)
      as [[e E] | (job & Ej & E)]; rewrite E; cbn [snd].
    + split; assumption.
    + unfold sequenced, controllerSteps in *. cbn [fst snd] in *.
      rewrite Ej in Hd, Ha. cbn [currentJob set_Steps Steps].
      apply dense_snoc; [assumption | assumption | reflexivity].
  - unfold sequenced, controllerSteps, ClearBendStepsFromCurrentJob in *.
    cbn [fst snd] in *.
    destruct (currentJob jc) as [job |] eqn:Ej; cbn [fst snd currentJob].
    + destruct (Sheet (set_Steps job [])); cbn;
        (split; [apply dense_nil | constructor]).
    + rewrite Ej. split; assumption.
Qed.

Lemma runOps_sequenced (ops : list ControllerOp)
    (st : Store * JobController) :
  sequenced st -> sequenced (runOps ops st).
Proof.
  revert st. induction ops as [| op rest IH]; intros st H; simpl.
  - exact H.
  - apply IH, stepOp_sequenced, H.
Qed.

(** Successful adds lengthen the step list by one each. *)
Lemma runOps_adds_length (ops : list ControllerOp)
    (st : Store * JobController) :
  forallb isAdd ops = true -> allSucceed ops st = true ->
  List.length (controllerSteps (runOps ops st))
  = (List.length (controllerSteps st) + List.length ops)%nat.
Proof.
  revert st. induction ops as [| op rest IH]; intros st Hadd Hok; simpl.
  - lia.
  - simpl in Hadd, Hok. apply andb_prop in Hadd, Hok.
    destruct Hadd as [Hop Hrest], Hok as [Hs Hoks].
    rewrite (IH (stepOp op st) Hrest Hoks).
    destruct op as [pos angle radius dir |]; [| discriminate].
    destruct st as [h jc]. cbn [stepOp opSucceeds fst snd] in *.
    destruct (AddBendStep_cases h jc pos angle radius dir)
      as [[e E] | (job & Ej & E)]; rewrite E in *; cbn [fst snd] in *.
    + discriminate.
    + unfold controllerSteps. cbn [snd currentJob set_Steps Steps].
      rewrite Ej, length_app. simpl. lia.
Qed.

(** C7. Starting from a job with an empty step list, after any sequence of
    [AddBendStepToCurrentJob] and [ClearBendStepsFromCurrentJob] calls the
    step at index [i] carries [SequenceOrder = i + 1]; and after [N]
    successful adds with no clear the list has the [N] steps of indices
    [0 .. N-1], each with that number. *)
Theorem SequenceOrder_dense (ops : list ControllerOp) (h : Store)
    (jc : JobController) :
  controllerSteps (h, jc) = [] ->
  (forall i p,
     nth_error (controllerSteps (runOps ops (h, jc))) i = Some p ->
     SequenceOrder (deref (fst (runOps ops (h, jc))) p) = Z.of_nat i + 1)
  /\ (forallb isAdd ops = true -> allSucceed ops (h, jc) = true ->
      List.length (controllerSteps (runOps ops (h, jc))) = List.length ops
      /\ forall i, (i < List.length ops)%nat ->
           exists p,
             nth_error (controllerSteps (runOps ops (h, jc))) i = Some p
             /\ SequenceOrder (deref (fst (runOps ops (h, jc))) p)
                = Z.of_nat i + 1).
Proof.
  intro Hempty.
  assert (Hseq : sequenced (runOps ops (h, jc))).
  { apply runOps_sequenced. unfold sequenced. rewrite Hempty.
    split; [apply dense_nil | constructor]. }
  destruct Hseq as [Hd _]. split.
  - exact Hd.
  - intros Hadd Hok.
    pose proof (runOps_adds_length ops (h, jc) Hadd Hok) as Hlen.
    rewrite Hempty in Hlen. simpl in Hlen. split; [exact Hlen |].
    intros i Hi.
    destruct (nth_error (controllerSteps (runOps ops (h, jc))) i)
      as [p |] eqn:Ep.
    + exists p. split; [reflexivity | apply Hd; exact Ep].
    + apply nth_error_None in Ep. lia.
Qed.

Lemma SequenceOrder_dense_witness :
  List.length (controllerSteps (runOps threeAdds (emptyStore, defaultController)))
  = 3%nat
  /\ forall i, (i < 3)%nat ->
       exists p,
         nth_error
           (controllerSteps (runOps threeAdds (emptyStore, defaultController)))
           i = Some p
         /\ SequenceOrder
              (deref (fst (runOps threeAdds (emptyStore, defaultController))) p)
            = Z.of_nat i + 1.
Proof.
  exact (proj2 (SequenceOrder_dense threeAdds emptyStore defaultController
                  eq_refl) eq_refl eq_refl).
Defined.

(** ** Application controller: the radius warning *)

Lemma runAction_addStep (w : World) (jc : JobController) (job : Job)
    (sheet : SheetMetal) (pos angle radius : float64) (dir : BendDirection) :
  jobController (ac w) = Some jc ->
  currentJob jc = Some job -> Sheet job = Some sheet ->
  (pos <= F64.zero)%f64 = false ->
  (pos >= OriginalLength sheet)%f64 = false ->
  (radius < minBendRadius)%f64 = false ->
  (radius > maxBendRadius)%f64 = false ->
  (angle < minBendAngle)%f64 = false ->
  (angle > maxBendAngle)%f64 = false ->
  runAction (addStepAction pos angle radius dir) w
  = Some (stepAdded w job pos angle radius dir).
Proof.
  intros Hjc Hj Hs H1 H2 H3 H4 H5 H6. unfold runAction. rewrite Hjc.
  rewrite (AddBendStep_accepts (heap w) jc job sheet pos angle radius dir
             Hj Hs H1 H2 H3 H4 H5 H6).
  reflexivity.
Qed.

Lemma jobSteps_stepAdded (w : World) (job : Job)
    (pos angle radius : float64) (dir : BendDirection) :
  jobSteps (stepAdded w job pos angle radius dir)
  = Steps job ++ [next (heap w)].
Proof. reflexivity. Qed.

(** A click on a dialog button closes the dialog; [dismissDialog] has
    cleared both pending actions by the time the handler tests them, so the
    click runs neither. *)
Lemma dialog_click_runs_no_action (w : World) :
  clickDialogButton dialogConfirmAction w = Some (dismissDialog w)
  /\ clickDialogButton dialogCancelAction w = Some (dismissDialog w).
Proof. split; reflexivity. Qed.

(** With radius 1e-7 on the default sheet (recommended minimum 3 mm) the
    handler appends the step at once and opens no dialog. *)
Lemma tiny_radius_appended_at_once :
  (tinyRadius > F64.zero)%f64 = true
  /\ (tinyRadius < GetMinBendRadius defaultSheet)%f64 = true
  /\ (exists w',
        handleAddBendStep (appWithBend tinyRadius) = Some w'
        /\ jobSteps (appWithBend tinyRadius) = []
        /\ jobSteps w' = [0%nat]
        /\ Radius (deref (heap w') 0%nat) = tinyRadius
        /\ showDialog (ac w') = false)
  /\ ~ warned_bend_not_appended.
Proof.
  split; [vm_compute; reflexivity |].
  split; [vm_compute; reflexivity |].
  split.
  - eexists. split; [vm_compute; reflexivity |].
    repeat split; vm_compute; reflexivity.
  - intro H.
    assert (E : exists w', handleAddBendStep (appWithBend tinyRadius)
                           = Some w' /\ jobSteps w' = [0%nat]).
    { eexists. split; vm_compute; reflexivity. }
    destruct E as (w' & E & Hsteps).
    specialize (H (appWithBend tinyRadius) defaultController defaultJob
                  defaultSheet (F64.of_Z 50) (F64.of_Z 90) tinyRadius w'
                  eq_refl eq_refl eq_refl eq_refl eq_refl eq_refl
                  eq_refl eq_refl eq_refl eq_refl eq_refl eq_refl
                  eq_refl eq_refl E).
    rewrite Hsteps in H. discriminate.
Qed.

(** C1, amended.  For a bend that passes the range checks:
    - with 1e-6 < radius < GetMinBendRadius(sheet), [handleAddBendStep]
      appends nothing; it opens the "Radius Warning" dialog and registers
      the append as the dialog's confirm action (a closure that, when run,
      appends the step) and the cancellation message as its cancel action;
      a click on Cancel then closes the dialog and leaves the step list
      unchanged;
    - otherwise (in particular with 0 < radius <= 1e-6) the step is
      appended at once, with no dialog. *)
Theorem handleAddBendStep_radius_warning (w : World) (jc : JobController)
    (job : Job) (sheet : SheetMetal) (pos angle radius : float64) :
  jobController (ac w) = Some jc ->
  currentJob jc = Some job -> Sheet job = Some sheet ->
  bendPositionEditor (ac w) = Some pos ->
  bendAngleEditor (ac w) = Some angle ->
  bendRadiusEditor (ac w) = Some radius ->
  (pos > F64.zero)%f64 = true ->
  (pos < OriginalLength sheet)%f64 = true ->
  (radius >= F64.zero)%f64 = true ->
  (radius <= F64.of_Z 500)%f64 = true ->
  (angle >= F64.of_Z 1)%f64 = true ->
  (angle <= F64.of_Z 179)%f64 = true ->
  let addStep := addStepAction pos angle radius (selectedDirection (ac w)) in
  ((radius > F64.of_ratio 1 1000000)%f64 = true ->
   (radius < GetMinBendRadius sheet)%f64 = true ->
   exists w',
     handleAddBendStep w = Some w'
     /\ heap w' = heap w
     /\ jobController (ac w') = jobController (ac w)
     /\ jobSteps w' = jobSteps w
     /\ showDialog (ac w') = true
     /\ dialogConfirmAction (ac w') = Some addStep
     /\ dialogCancelAction (ac w') = Some bendAdditionCancelled
     /\ (exists w2, runAction addStep w' = Some w2
                    /\ jobSteps w2 = jobSteps w ++ [next (heap w)]
                    /\ deref (heap w2) (next (heap w))
                       = proposedStep job pos angle radius
                           (selectedDirection (ac w)))
     /\ (exists w3, processDialogEvents false true w' = Some w3
                    /\ heap w3 = heap w
                    /\ jobSteps w3 = jobSteps w
                    /\ showDialog (ac w3) = false))
  /\ ((radius > F64.of_ratio 1 1000000)%f64 = false
      \/ (radius < GetMinBendRadius sheet)%f64 = false ->
      exists w',
        handleAddBendStep w = Some w'
        /\ jobSteps w' = jobSteps w ++ [next (heap w)]
        /\ deref (heap w') (next (heap w))
           = proposedStep job pos angle radius (selectedDirection (ac w))
        /\ showDialog (ac w') = showDialog (ac w)).
Proof.
  intros Hjc Hj Hs Ep Ea Er P1 P2 R1 R2 A1 A2 addStep. subst addStep.
  set (dir := selectedDirection (ac w)).
  pose proof (gt_excludes_le _ _ P1) as N1.
  pose proof (lt_excludes_ge _ _ P2) as N2.
  pose proof (ge_excludes_lt _ _ R1) as N3.
  pose proof (le_excludes_gt _ _ R2) as N4.
  pose proof (ge_excludes_lt _ _ A1) as N5.
  pose proof (le_excludes_gt _ _ A2) as N6.
  assert (Hsteps : jobSteps w = Steps job).
  { unfold jobSteps, ac_currentJob. rewrite Hjc, Hj. reflexivity. }
  assert (Hhandle : handleAddBendStep w
                    = if (radius > radiusEpsilon)%f64
                         && (radius < GetMinBendRadius sheet)%f64
                      then Some (showConfirmDialog "Radius Warning"%string
                                   (Some (addStepAction pos angle radius dir))
                                   (Some bendAdditionCancelled) w)
                      else runAction (addStepAction pos angle radius dir) w).
  { unfold handleAddBendStep. rewrite Hjc, Hj, Hs, Ep, Ea, Er.
    change minBendRadius with F64.zero.
    change maxBendRadius with (F64.of_Z 500).
    change minBendAngle with (F64.of_Z 1).
    change maxBendAngle with (F64.of_Z 179).
    rewrite N1, N2, N3, N4, N5, N6. reflexivity. }
  change (F64.of_ratio 1 1000000) with radiusEpsilon.
  split.
  - intros Heps Hmin. rewrite Hhandle, Heps, Hmin. cbn [andb].
    eexists. split; [reflexivity |].
    split; [reflexivity |]. split; [reflexivity |].
    split; [reflexivity |]. split; [reflexivity |].
    split; [reflexivity |]. split; [reflexivity |]. split.
    + eexists. split.
      * apply (runAction_addStep _ jc job sheet); try assumption.
      * rewrite jobSteps_stepAdded, Hsteps. split; [reflexivity |].
        apply deref_new_fresh.
    + eexists. split; [reflexivity |]. repeat split.
  - intros Hno. rewrite Hhandle.
    assert (B : (radius > radiusEpsilon)%f64
                && (radius < GetMinBendRadius sheet)%f64 = false).
    { destruct Hno as [E | E]; rewrite E;
        [reflexivity | apply andb_false_r]. }
    rewrite B.
    rewrite (runAction_addStep w jc job sheet pos angle radius dir
               Hjc Hj Hs N1 N2 N3 N4 N5 N6).
    eexists. split; [reflexivity |].
    rewrite jobSteps_stepAdded, Hsteps. split; [reflexivity |].
    split; [apply deref_new_fresh | reflexivity].
Qed.

Lemma handleAddBendStep_radius_warning_witness :
  (exists w',
     handleAddBendStep (appWithBend (F64.of_Z 1)) = Some w'
     /\ jobSteps w' = jobSteps (appWithBend (F64.of_Z 1))
     /\ showDialog (ac w') = true)
  /\ (exists w',
        handleAddBendStep (appWithBend (F64.of_ratio 35 10)) = Some w'
        /\ jobSteps w'
           = jobSteps (appWithBend (F64.of_ratio 35 10)) ++ [0%nat]).
Proof.
  split.
  - destruct (proj1 (handleAddBendStep_radius_warning
                       (appWithBend (F64.of_Z 1)) defaultController
                       defaultJob defaultSheet (F64.of_Z 50) (F64.of_Z 90)
                       (F64.of_Z 1)
                       eq_refl eq_refl eq_refl eq_refl eq_refl eq_refl
                       eq_refl eq_refl eq_refl eq_refl eq_refl eq_refl)
                eq_refl eq_refl)
      as (w' & E & _ & _ & Hst & Hdlg & _).
    exists w'. repeat split; assumption.
  - destruct (proj2 (handleAddBendStep_radius_warning
                       (appWithBend (F64.of_ratio 35 10)) defaultController
                       defaultJob defaultSheet (F64.of_Z 50) (F64.of_Z 90)
                       (F64.of_ratio 35 10)
                       eq_refl eq_refl eq_refl eq_refl eq_refl eq_refl
                       eq_refl eq_refl eq_refl eq_refl eq_refl eq_refl)
                (or_intror eq_refl))
      as (w' & E & Hst & _).
    exists w'. split; assumption.
Defined.

(* ================================================================== *)
(** * Further properties of the program *)

(** ** Binary64 facts used below *)

Lemma not_le_zero (x : float64) :
  (x <= F64.zero)%f64 = false ->
  (x > F64.zero)%f64 = true \/ F64.is_nan x = true.
Proof.
  destruct x as [s | s | | s m e]; simpl; try (destruct s); simpl;
    intro H; try discriminate; auto.
Qed.


Lemma nan_compares_false (x : float64) :
  F64.is_nan x = true ->
  (x <= F64.zero)%f64 = false /\ (x > F64.zero)%f64 = false
  /\ forall y, (x < y)%f64 = false /\ (x > y)%f64 = false
               /\ (x <= y)%f64 = false /\ (x >= y)%f64 = false.
Proof.
  destruct x; try discriminate. intros _.
  repeat split; try reflexivity; destruct y; reflexivity.
Qed.

(** Shifting a non-negative mantissa right keeps it non-negative. *)
Lemma shr_1_nonneg (mrs : shr_record) :
  0 <= shr_m mrs -> 0 <= shr_m (shr_1 mrs).
Proof.
  destruct mrs as [m r s]. simpl.
  destruct m as [| [p | p |] | [p | p |]]; simpl; lia.
Qed.

Lemma iter_pos_invariant {A : Type} (P : A -> Prop) (f : A -> A) :
  (forall x, P x -> P (f x)) ->
  forall n x, P x -> P (iter_pos f n x).
Proof.
  intros Hf. induction n as [n IH | n IH |]; intros x Hx; simpl.
  - apply IH, IH, Hf, Hx.
  - apply IH, IH, Hx.
  - apply Hf, Hx.
Qed.

Lemma shr_fexp_nonneg (m e : Z) (l : location) :
  0 <= m -> 0 <= shr_m (fst (shr_fexp F64.prec F64.emax m e l)).
Proof.
  intro Hm. unfold shr_fexp, shr.
  assert (H0 : 0 <= shr_m (shr_record_of_loc m l)).
  { destruct l as [| [ | | ]]; simpl; exact Hm. }
  destruct (fexp F64.prec F64.emax (Zdigits2 m + e) - e) as [| p | p];
    simpl; try exact H0.
  apply (iter_pos_invariant (fun mrs => 0 <= shr_m mrs)); [| exact H0].
  exact shr_1_nonneg.
Qed.

Lemma round_nearest_even_nonneg (m : Z) (l : location) :
  0 <= m -> 0 <= round_nearest_even m l.
Proof.
  intro Hm. unfold round_nearest_even.
  destruct l as [| [ | | ]]; try destruct (Z.even m); lia.
Qed.

(** Rounding a non-negative mantissa gives a zero, a finite number or an
    infinity of the requested sign, never NaN. *)
Lemma binary_round_aux_sign (sx : bool) (mx ex : Z) (lx : location) :
  0 <= mx ->
  match binary_round_aux F64.prec F64.emax sx mx ex lx with
  | S754_zero s | S754_infinity s | S754_finite s _ _ => s = sx
  | S754_nan => False
  end.
Proof.
  intro Hm. unfold binary_round_aux.
  pose proof (shr_fexp_nonneg mx ex lx Hm) as H1.
  destruct (shr_fexp F64.prec F64.emax mx ex lx) as [mrs' e'].
  simpl in H1.
  pose proof (shr_fexp_nonneg
                (round_nearest_even (shr_m mrs') (loc_of_shr_record mrs'))
                e' loc_Exact
                (round_nearest_even_nonneg _ _ H1)) as H2.
  destruct (shr_fexp F64.prec F64.emax
              (round_nearest_even (shr_m mrs') (loc_of_shr_record mrs'))
              e' loc_Exact) as [mrs'' e''].
  simpl in H2.
  destruct (shr_m mrs'') as [| p | p]; try reflexivity; [| lia].
  destruct (e'' <=? F64.emax - F64.prec); reflexivity.
Qed.

(** The product of two numbers above zero is at least zero (it may round
    to zero or to infinity), and is not NaN. *)
Lemma mul_positive (x y : float64) :
  (x > F64.zero)%f64 = true -> (y > F64.zero)%f64 = true ->
  (x * y >= F64.zero)%f64 = true.
Proof.
  destruct x as [sx | sx | | sx mx ex]; try (destruct sx); simpl;
    try discriminate; intros _;
    destruct y as [sy | sy | | sy my ey]; try (destruct sy); simpl;
    try discriminate; intros _; try reflexivity.
  unfold F64.mul, F64.ge, SFmul. simpl xorb.
  pose proof (binary_round_aux_sign false (Z.pos (mx * my)) (ex + ey)
                loc_Exact ltac:(lia)) as H.
  destruct (binary_round_aux F64.prec F64.emax false (Z.pos (mx * my))
              (ex + ey) loc_Exact) as [s | s | | s m e];
    try contradiction; subst s; reflexivity.
Qed.

(** ** Sheet model *)

(** X1. A sheet returned by [NewSheetMetal] has a named material and each
    of its dimensions is above zero or NaN; and NaN is let through: with a
    NaN length and the other arguments good, a sheet is returned. *)
Theorem NewSheetMetal_dimensions_positive_or_nan
    (id : string) (length width thickness : float64) (m : MaterialDetails) :
  (forall s, NewSheetMetal id length width thickness m = Ok s ->
     ((OriginalLength s > F64.zero)%f64 = true
      \/ F64.is_nan (OriginalLength s) = true)
     /\ ((Width s > F64.zero)%f64 = true \/ F64.is_nan (Width s) = true)
     /\ ((Thickness s > F64.zero)%f64 = true
         \/ F64.is_nan (Thickness s) = true)
     /\ Material_Name (Material s) <> EmptyString)
  /\ ((width > F64.zero)%f64 = true -> (thickness > F64.zero)%f64 = true ->
      Material_Name m <> EmptyString ->
      exists s, NewSheetMetal id S754_nan width thickness m = Ok s
                /\ OriginalLength s = S754_nan).
Proof.
  split.
  - intros s H.
    destruct (NewSheetMetal_success id length width thickness m s H)
      as (-> & Hl & Hw & Ht & Hn).
    simpl. repeat split; try (apply not_le_zero; assumption). exact Hn.
  - intros Hw Ht Hn. unfold NewSheetMetal.
    rewrite (gt_excludes_le _ _ Hw), (gt_excludes_le _ _ Ht). simpl.
    destruct (String.eqb_spec (Material_Name m) EmptyString) as [E | _];
      [contradiction |].
    eexists. split; reflexivity.
Qed.

Lemma NewSheetMetal_dimensions_positive_or_nan_witness :
  (exists s, NewSheetMetal "S"%string S754_nan (F64.of_Z 100) (F64.of_Z 2)
               steel = Ok s
             /\ OriginalLength s = S754_nan)
  /\ ((OriginalLength defaultSheet > F64.zero)%f64 = true
      \/ F64.is_nan (OriginalLength defaultSheet) = true).
Proof.
  split.
  - apply (proj2 (NewSheetMetal_dimensions_positive_or_nan "S"%string
                    S754_nan (F64.of_Z 100) (F64.of_Z 2) steel));
      [reflexivity | reflexivity | discriminate].
  - exact (proj1 (proj1 (NewSheetMetal_dimensions_positive_or_nan
                           "DefaultSheet-001"%string (F64.of_Z 300)
                           (F64.of_Z 100) (F64.of_Z 2) steel)
                    defaultSheet eq_refl)).
Defined.

(** X2. The constructor of the v0.4.0 layout returns exactly the sheets the
    v0.3.0 one returns for a non-empty id, and none for the empty id: a
    sheet it returns has a non-empty [ID]. *)
Theorem Refactored_NewSheetMetal_refines
    (id : string) (length width thickness : float64) (m : MaterialDetails)
    (s : SheetMetal) :
  (Refactored.NewSheetMetal id length width thickness m = Ok s <->
   id <> EmptyString /\ NewSheetMetal id length width thickness m = Ok s)
  /\ (Refactored.NewSheetMetal id length width thickness m = Ok s ->
      ID s <> EmptyString).
Proof.
  assert (Iff : Refactored.NewSheetMetal id length width thickness m = Ok s
                <-> id <> EmptyString
                    /\ NewSheetMetal id length width thickness m = Ok s).
  { unfold Refactored.NewSheetMetal, NewSheetMetal.
    destruct (String.eqb_spec id EmptyString) as [E | E].
    - split; [discriminate | intros [H _]; contradiction].
    - destruct ((length <= F64.zero)%f64 || (width <= F64.zero)%f64
                || (thickness <= F64.zero)%f64).
      + split; [discriminate | intros [_ H]; discriminate].
      + destruct (String.eqb (Material_Name m) EmptyString).
        * split; [discriminate | intros [_ H]; discriminate].
        * split; [intro H; split; assumption | intros [_ H]; exact H]. }
  split; [exact Iff |].
  intro H. apply Iff in H. destruct H as [Hid H].
  destruct (NewSheetMetal_success id length width thickness m s H)
    as (-> & _). exact Hid.
Qed.

(** X3. For a thickness and a factor that are not NaN, [GetMinBendRadius]
    is a number at least zero (never negative, never NaN). *)
Theorem GetMinBendRadius_nonnegative (s : SheetMetal) :
  F64.is_nan (Thickness s) = false ->
  F64.is_nan (MinBendRadiusFactor (Material s)) = false ->
  (GetMinBendRadius s >= F64.zero)%f64 = true
  /\ F64.is_nan (GetMinBendRadius s) = false.
Proof.
  intros Ht Hf.
  assert (G : (GetMinBendRadius s >= F64.zero)%f64 = true).
  { unfold GetMinBendRadius.
    destruct (Thickness s <= F64.zero)%f64 eqn:Et; [reflexivity |].
    destruct (not_le_zero _ Et) as [Pt | Nt]; [| congruence].
    destruct (MinBendRadiusFactor (Material s) <= F64.zero)%f64 eqn:Ef.
    - apply mul_positive; [exact Pt | reflexivity].
    - destruct (not_le_zero _ Ef) as [Pf | Nf]; [| congruence].
      apply mul_positive; assumption. }
  split; [exact G |].
  destruct (GetMinBendRadius s); try reflexivity. discriminate.
Qed.

Lemma GetMinBendRadius_nonnegative_witness :
  (GetMinBendRadius defaultSheet >= F64.zero)%f64 = true
  /\ F64.is_nan (GetMinBendRadius defaultSheet) = false.
Proof.
  exact (GetMinBendRadius_nonnegative defaultSheet eq_refl eq_refl).
Defined.

Lemma Refactored_NewSheetMetal_refines_witness :
  ID defaultSheet <> EmptyString.
Proof.
  exact (proj2 (Refactored_NewSheetMetal_refines "DefaultSheet-001"%string
                  (F64.of_Z 300) (F64.of_Z 100) (F64.of_Z 2) steel
                  defaultSheet) eq_refl).
Defined.

(** ** Catalogues *)

Lemma lookup_In_keys {V : Type} (m : gomap V) (k : string) :
  In k (keys m) <-> exists v, lookup m k = Some v.
Proof.
  induction m as [| [k' v'] rest IH]; simpl.
  - split; [contradiction | intros [v H]; discriminate].
  - destruct (String.eqb_spec k' k) as [E | E].
    + split; [intros _; exists v'; reflexivity | intros _; left; exact E].
    + rewrite <- IH. split; [intros [H | H]; [contradiction | exact H] |].
      intro H. right. exact H.
Qed.

Lemma lookup_In_entry {V : Type} (m : gomap V) (k : string) (v : V) :
  lookup m k = Some v -> In (k, v) m.
Proof.
  induction m as [| [k' v'] rest IH]; simpl; [discriminate |].
  destruct (String.eqb_spec k' k) as [E | E].
  - intro H. injection H as <-. subst k'. left. reflexivity.
  - intro H. right. apply IH, H.
Qed.

Lemma inMap_In_keys {V : Type} (m : gomap V) (k : string) :
  inMap m k = true <-> In k (keys m).
Proof.
  rewrite lookup_In_keys. unfold inMap.
  destruct (lookup m k) as [v |].
  - split; [intros _; exists v; reflexivity | reflexivity].
  - split; [discriminate | intros [v H]; discriminate].
Qed.

Lemma mem_In (k : string) (l : list string) : mem k l = true <-> In k l.
Proof.
  unfold mem. rewrite existsb_exists. split.
  - intros (x & Hx & E). apply String.eqb_eq in E. subst x. exact Hx.
  - intro H. exists k. split; [exact H | apply String.eqb_refl].
Qed.

Lemma fold_addPreferred (mats : gomap MaterialDetails)
    (l : list MaterialName) (names : list string)
    (added : list MaterialName) :
  fold_left (addPreferred mats) l (names, added)
  = (names ++ filter (inMap mats) l, rev (filter (inMap mats) l) ++ added).
Proof.
  revert names added. induction l as [| k rest IH]; intros names added.
  - simpl. rewrite app_nil_r. reflexivity.
  - cbn [fold_left filter].
    assert (Ek : inMap mats k
                 = match lookup mats k with Some _ => true | None => false end)
      by reflexivity.
    unfold addPreferred at 2. cbn [fst snd].
    destruct (lookup mats k); rewrite Ek, IH.
    + cbn [rev]. rewrite <- !app_assoc. reflexivity.
    + reflexivity.
Qed.

Lemma fold_addOther (added : list MaterialName) (l : list MaterialName)
    (names : list string) :
  fold_left (addOther added) l names
  = names ++ filter (fun k => negb (mem k added)) l.
Proof.
  revert names. induction l as [| k rest IH]; intro names; simpl.
  - rewrite app_nil_r. reflexivity.
  - unfold addOther at 2. destruct (mem k added); simpl; rewrite IH.
    + reflexivity.
    + rewrite <- app_assoc. reflexivity.
Qed.

(** The closed form of [GetMaterialNames]: the preferred names that are
    keys, in the preferred order, then the other keys in the order of the
    [range]. *)
Lemma GetMaterialNames_closed (mats : gomap MaterialDetails) :
  GetMaterialNames mats
  = filter (inMap mats) preferredOrder
    ++ filter (fun k => negb (mem k preferredOrder)) (keys mats).
Proof.
  unfold GetMaterialNames. rewrite fold_addPreferred. cbn [fst snd].
  rewrite fold_addOther, app_nil_r. cbn [app]. f_equal.
  apply filter_ext_in. intros k Hk. f_equal.
  apply eq_true_iff_eq. rewrite !mem_In, <- in_rev, filter_In.
  apply inMap_In_keys in Hk. tauto.
Qed.

Lemma GetMaterialNames_In (mats : gomap MaterialDetails) (k : string) :
  In k (GetMaterialNames mats) <-> In k (keys mats).
Proof.
  rewrite GetMaterialNames_closed, in_app_iff, !filter_In, inMap_In_keys.
  rewrite negb_true_iff.
  destruct (mem k preferredOrder) eqn:E.
  - apply mem_In in E. split; [intros [[_ H] | [H D]] | intro H].
    + exact H.
    + discriminate.
    + left. split; assumption.
  - split; [intros [[_ H] | [H _]]; exact H | intro H; right; split; auto].
Qed.

Lemma preferredOrder_NoDup : NoDup preferredOrder.
Proof.
  unfold preferredOrder. repeat constructor; simpl; intro H;
    repeat (destruct H as [H | H]; [discriminate |]); exact H.
Qed.

(** X4. Whatever the order in which the map is ranged over,
    [GetMaterialNames] returns the preferred names that are keys of the
    map, in the preferred order, followed by the remaining keys; the result
    lists every key of the map and, the keys being distinct, lists it
    once. *)
Theorem GetMaterialNames_lists_keys (mats : gomap MaterialDetails) :
  GetMaterialNames mats
  = filter (inMap mats) preferredOrder
    ++ filter (fun k => negb (mem k preferredOrder)) (keys mats)
  /\ (forall k, In k (GetMaterialNames mats) <-> In k (keys mats))
  /\ (NoDup (keys mats) ->
      NoDup (GetMaterialNames mats)
      /\ List.length (GetMaterialNames mats) = List.length mats).
Proof.
  split; [apply GetMaterialNames_closed |].
  split; [apply GetMaterialNames_In |].
  intro Hnd.
  assert (N : NoDup (GetMaterialNames mats)).
  { rewrite GetMaterialNames_closed. apply NoDup_app.
    - apply NoDup_filter, preferredOrder_NoDup.
    - apply NoDup_filter, Hnd.
    - intros k H1 H2. apply filter_In in H1, H2.
      destruct H1 as [H1 _], H2 as [_ H2].
      apply mem_In in H1. rewrite H1 in H2. discriminate. }
  split; [exact N |].
  replace (List.length mats) with (List.length (keys mats))
    by apply length_map.
  apply Nat.le_antisymm; apply NoDup_incl_length; try assumption;
    intros k Hk; apply GetMaterialNames_In; exact Hk.
Qed.

Lemma GetMaterialNames_lists_keys_witness :
  NoDup (GetMaterialNames GetDefaultMaterials)
  /\ List.length (GetMaterialNames GetDefaultMaterials) = 5%nat.
Proof.
  apply (proj2 (proj2 (GetMaterialNames_lists_keys GetDefaultMaterials))).
  exact preferredOrder_NoDup.
Defined.

Lemma lookup_found {V : Type} (m : gomap V) (name : string) :
  (In name (keys m) <->
   exists v, match lookup m name with
             | Some v' => (Some v', true)
             | None => (None, false)
             end = (Some v, true)
             /\ In (name, v) m)
  /\ (~ In name (keys m) <->
      match lookup m name with
      | Some v' => (Some v', true)
      | None => (@None V, false)
      end = (None, false)).
Proof.
  rewrite lookup_In_keys.
  destruct (lookup m name) as [v |] eqn:E; split; split.
  - intros _. exists v. split; [reflexivity |].
    apply lookup_In_entry, E.
  - intros _. exists v. reflexivity.
  - intro H. exfalso. apply H. exists v. reflexivity.
  - discriminate.
  - intros [v H]. discriminate.
  - intros [v [H _]]. discriminate.
  - reflexivity.
  - intros _ [v H]. discriminate.
Qed.

(** X5. A name is among [GetPunchNames] exactly when [GetPunchByName]
    finds a punch under it, and the punch found is an entry of the map
    under that name; for any other name the result is [(nil, false)].  The
    same holds of [GetDieNames] and [GetDieByName]. *)
Theorem tooling_names_found (m : ToolingManager) (name : string) :
  (In name (GetPunchNames m) <->
   exists p, GetPunchByName m name = (Some p, true)
             /\ In (name, p) (punches m))
  /\ (~ In name (GetPunchNames m) <-> GetPunchByName m name = (None, false))
  /\ (In name (GetDieNames m) <->
      exists d, GetDieByName m name = (Some d, true)
                /\ In (name, d) (dies m))
  /\ (~ In name (GetDieNames m) <-> GetDieByName m name = (None, false)).
Proof.
  unfold GetPunchNames, GetPunchByName, GetDieNames, GetDieByName.
  destruct (lookup_found (punches m) name) as [P1 P2].
  destruct (lookup_found (dies m) name) as [D1 D2].
  repeat split; first [apply P1 | apply P2 | apply D1 | apply D2].
Qed.

(** X6. [GetDefaultPunch] returns nil exactly when there is no punch at
    all; it returns the punch stored under "Default Punch" when there is
    one, whatever the order of the map, and otherwise some punch of the
    map.  The same holds of [GetDefaultDie] and "Default Die". *)
Theorem default_tooling (m : ToolingManager) :
  (GetDefaultPunch m = None <-> punches m = [])
  /\ (forall p, lookup (punches m) "Default Punch"%string = Some p ->
                GetDefaultPunch m = Some p)
  /\ (forall p, GetDefaultPunch m = Some p -> In p (map snd (punches m)))
  /\ (GetDefaultDie m = None <-> dies m = [])
  /\ (forall d, lookup (dies m) "Default Die"%string = Some d ->
                GetDefaultDie m = Some d)
  /\ (forall d, GetDefaultDie m = Some d -> In d (map snd (dies m))).
Proof.
  unfold GetDefaultPunch, GetPunchByName, GetDefaultDie, GetDieByName.
  split; [| split; [| split; [| split; [| split]]]].
  - destruct (lookup (punches m) "Default Punch"%string) as [p |] eqn:E.
    + split; [discriminate | intro H; rewrite H in E; discriminate].
    + destruct (punches m) as [| [k p] rest];
        split; try reflexivity; discriminate.
  - intros p E. rewrite E. reflexivity.
  - intros p.
    destruct (lookup (punches m) "Default Punch"%string) as [q |] eqn:E.
    + intro H. injection H as <-. apply lookup_In_entry in E.
      apply (in_map snd) in E. exact E.
    + destruct (punches m) as [| [k q] rest]; [discriminate |].
      intro H. injection H as <-. left. reflexivity.
  - destruct (lookup (dies m) "Default Die"%string) as [d |] eqn:E.
    + split; [discriminate | intro H; rewrite H in E; discriminate].
    + destruct (dies m) as [| [k d] rest];
        split; try reflexivity; discriminate.
  - intros d E. rewrite E. reflexivity.
  - intros d.
    destruct (lookup (dies m) "Default Die"%string) as [q |] eqn:E.
    + intro H. injection H as <-. apply lookup_In_entry in E.
      apply (in_map snd) in E. exact E.
    + destruct (dies m) as [| [k q] rest]; [discriminate |].
      intro H. injection H as <-. left. reflexivity.
Qed.

Lemma default_tooling_witness :
  GetDefaultPunch NewToolingManager = Some defaultPunch
  /\ GetDefaultDie NewToolingManager = Some defaultDie.
Proof.
  split.
  - exact (proj1 (proj2 (default_tooling NewToolingManager))
             defaultPunch eq_refl).
  - exact (proj1 (proj2 (proj2 (proj2 (proj2
             (default_tooling NewToolingManager)))))
             defaultDie eq_refl).
Defined.

Lemma tooling_names_found_witness :
  exists p, GetPunchByName NewToolingManager "P30.15.R1"%string
            = (Some p, true)
            /\ In ("P30.15.R1"%string, p) (punches NewToolingManager).
Proof.
  apply (proj1 (tooling_names_found NewToolingManager "P30.15.R1"%string)).
  right. left. reflexivity.
Defined.

(** ** Job controller *)

(** A call either fails and changes nothing, or has found a sheet against
    which the new step passes the range checks. *)
Lemma AddBendStep_outcome (h : Store) (jc : JobController)
    (pos angle radius : float64) (dir : BendDirection) :
  (exists e,
     AddBendStepToCurrentJob h jc pos angle radius dir = (Err e, (h, jc)))
  \/ (exists job sheet,
        currentJob jc = Some job /\ Sheet job = Some sheet
        /\ passesRangeChecks sheet
             {| SequenceOrder := len (Steps job) + 1;
                Position := pos; TargetAngle := angle;
                Radius := radius; Direction := dir |} = true
        /\ AddBendStepToCurrentJob h jc pos angle radius dir
           = (Ok (next h),
              (snd (new h {| SequenceOrder := len (Steps job) + 1;
                             Position := pos; TargetAngle := angle;
                             Radius := radius; Direction := dir |}),
               {| currentJob :=
                    Some (set_Steps job (Steps job ++ [next h])) |}))).
Proof.
  unfold AddBendStepToCurrentJob.
  destruct (currentJob jc) as [job |] eqn:Ej; [| left; eexists; reflexivity].
  destruct (Sheet job) as [sheet |] eqn:Es; [| left; eexists; reflexivity].
  destruct ((pos <= F64.zero)%f64 || (pos >= OriginalLength sheet)%f64)
    eqn:E1; [left; eexists; reflexivity |].
  destruct ((radius < minBendRadius)%f64 || (radius > maxBendRadius)%f64)
    eqn:E2; [left; eexists; reflexivity |].
  destruct ((angle < minBendAngle)%f64 || (angle > maxBendAngle)%f64)
    eqn:E3; [left; eexists; reflexivity |].
  right. exists job, sheet. repeat split; try assumption.
  unfold passesRangeChecks. cbn [Position Radius TargetAngle].
  rewrite E1, E2, E3. reflexivity.
Qed.

Lemma passesRangeChecks_ResetForm (sheet : SheetMetal) (b : BendStep) :
  passesRangeChecks (ResetForm sheet) b = passesRangeChecks sheet b.
Proof. reflexivity. Qed.

Lemma stepOp_validated (op : ControllerOp) (st : Store * JobController) :
  validated st -> validated (stepOp op st).
Proof.
  destruct st as [h jc]. intros [Ha Hv].
  destruct op as [pos angle radius dir |]; cbn [stepOp fst snd].
  - destruct (AddBendStep_outcome h jc pos angle radius dir)
      as [[e E] | (job & sheet & Ej & Es & Hp & E)]; rewrite E; cbn [snd].
    + split; assumption.
    + unfold validated, controllerSteps, controllerSheet, allocated in *.
      cbn [fst snd currentJob set_Steps Steps Sheet] in *.
      rewrite Ej in Ha, Hv. specialize (Hv sheet Es).
      split.
      * apply Forall_app. split.
        -- eapply Forall_impl; [| exact Ha]. simpl. intros a Hlt. lia.
        -- constructor; [simpl; lia | constructor].
      * intros sheet' Es'. rewrite Es in Es'. injection Es' as <-.
        apply Forall_app. split.
        -- rewrite Forall_forall in *. intros p Hin.
           rewrite deref_new_old by (apply Ha, Hin). apply Hv, Hin.
        -- constructor; [| constructor].
           rewrite deref_new_fresh. exact Hp.
  - unfold validated, controllerSteps, controllerSheet,
      ClearBendStepsFromCurrentJob in *.
    cbn [fst snd] in *.
    destruct (currentJob jc) as [job |] eqn:Ej; cbn [fst snd currentJob].
    + destruct (Sheet (set_Steps job [])); cbn;
        (split; [constructor | intros; constructor]).
    + rewrite Ej. split; assumption.
Qed.

Lemma runOps_validated (ops : list ControllerOp)
    (st : Store * JobController) :
  validated st -> validated (runOps ops st).
Proof.
  revert st. induction ops as [| op rest IH]; intros st H; simpl.
  - exact H.
  - apply IH, stepOp_validated, H.
Qed.

(** X7. Starting from an empty step list, after any sequence of
    [AddBendStepToCurrentJob] and [ClearBendStepsFromCurrentJob] calls
    every step of the job passes the three range checks against the job's
    sheet: no step is stored that the checks reject. *)
Theorem controller_steps_pass_range_checks (ops : list ControllerOp)
    (h : Store) (jc : JobController) (sheet : SheetMetal) (p : addr) :
  controllerSteps (h, jc) = [] ->
  controllerSheet (runOps ops (h, jc)) = Some sheet ->
  In p (controllerSteps (runOps ops (h, jc))) ->
  passesRangeChecks sheet (deref (fst (runOps ops (h, jc))) p) = true.
Proof.
  intros Hempty Hs Hin.
  assert (V : validated (runOps ops (h, jc))).
  { apply runOps_validated. unfold validated, allocated.
    rewrite Hempty. split; [constructor | intros; constructor]. }
  destruct V as [_ V]. specialize (V sheet Hs).
  rewrite Forall_forall in V. apply V, Hin.
Qed.

Lemma controller_steps_pass_range_checks_witness :
  passesRangeChecks defaultSheet
    (deref (fst (runOps threeAdds (emptyStore, defaultController))) 1%nat)
  = true.
Proof.
  apply (controller_steps_pass_range_checks threeAdds emptyStore
           defaultController defaultSheet 1%nat eq_refl eq_refl).
  right. left. reflexivity.
Defined.

Lemma stepOp_store (op : ControllerOp) (st : Store * JobController) :
  (next (fst st) <= next (fst (stepOp op st)))%nat
  /\ forall p, (p < next (fst st))%nat ->
               deref (fst (stepOp op st)) p = deref (fst st) p.
Proof.
  destruct st as [h jc].
  destruct op as [pos angle radius dir |]; cbn [stepOp fst snd].
  - destruct (AddBendStep_cases h jc pos angle radius dir)
      as [[e E] | (job & Ej & E)]; rewrite E; cbn [fst snd].
    + split; [lia | reflexivity].
    + split; [simpl; lia | intros p Hp; apply deref_new_old, Hp].
  - split; [lia | reflexivity].
Qed.

(** X8. A step object is never written after its allocation: after any
    sequence of controller calls every address allocated before still
    holds the step it held, and the store has only grown. *)
Theorem controller_store_stable (ops : list ControllerOp)
    (st : Store * JobController) (p : addr) :
  (p < next (fst st))%nat ->
  deref (fst (runOps ops st)) p = deref (fst st) p
  /\ (next (fst st) <= next (fst (runOps ops st)))%nat.
Proof.
  revert st. unfold runOps.
  induction ops as [| op rest IH]; intros st Hp; simpl.
  - split; [reflexivity | lia].
  - destruct (stepOp_store op st) as [Hn Hd].
    destruct (IH (stepOp op st) ltac:(lia)) as [E N].
    rewrite E, (Hd p Hp). split; [reflexivity | lia].
Qed.

Lemma controller_store_stable_witness :
  deref (fst (runOps (OpClear :: threeAdds) twoBends)) 0%nat
  = deref (fst twoBends) 0%nat
  /\ (next (fst twoBends)
      <= next (fst (runOps (OpClear :: threeAdds) twoBends)))%nat.
Proof.
  apply (controller_store_stable (OpClear :: threeAdds) twoBends 0%nat).
  vm_compute. lia.
Defined.

Lemma stepOp_identity (op : ControllerOp) (st : Store * JobController) :
  jobIdentity (stepOp op st) = jobIdentity st.
Proof.
  destruct st as [h jc].
  destruct op as [pos angle radius dir |]; cbn [stepOp fst snd].
  - destruct (AddBendStep_cases h jc pos angle radius dir)
      as [[e E] | (job & Ej & E)]; rewrite E; cbn [snd].
    + reflexivity.
    + unfold jobIdentity. cbn [snd currentJob]. rewrite Ej. reflexivity.
  - unfold jobIdentity, ClearBendStepsFromCurrentJob. cbn [snd].
    destruct (currentJob jc) as [job |] eqn:Ej;
      cbn [snd currentJob option_map]; [| rewrite Ej; reflexivity].
    destruct job as [name [s |] steps]; reflexivity.
Qed.

(** X9. The controller's calls change the step list and the sheet's formed
    state only: the job keeps its name and its sheet (or its lack of one),
    and the sheet keeps its id, dimensions and material. *)
Theorem controller_keeps_job_identity (ops : list ControllerOp)
    (st : Store * JobController) :
  jobIdentity (runOps ops st) = jobIdentity st.
Proof.
  revert st. unfold runOps.
  induction ops as [| op rest IH]; intro st; simpl.
  - reflexivity.
  - rewrite IH. apply stepOp_identity.
Qed.

(** ** Press brake *)

(** X10. A successful [ProcessJob] changes, on the press brake, the counter
    only (name, punch and die stay) and, on the sheet, the formed state
    only (id, dimensions and material stay); and what it returns does not
    depend on the bends the sheet held before the call. *)
Theorem ProcessJob_frame (h : Store) (pb pb' : PressBrake)
    (j j' : option Job) (s : SheetMetal) :
  ProcessJob h pb j = (Ok s, (pb', j')) ->
  PressBrake_Name pb' = PressBrake_Name pb
  /\ currentPunch pb' = currentPunch pb
  /\ currentDie pb' = currentDie pb
  /\ exists job sheet,
       j = Some job /\ Sheet job = Some sheet
       /\ sheetIdentity s = sheetIdentity sheet
       /\ forall bends,
            ProcessJob h pb
              (Some (set_Sheet job (Some (set_CurrentBends sheet bends))))
            = (Ok s, (pb', j')).
Proof.
  intro H.
  destruct (ProcessJob_Ok_inv h pb pb' j j' s H)
    as (job & sheet & punch & die & -> & Hs & Hp & Hd).
  rewrite (ProcessJob_succeeds h pb job sheet punch die Hs Hp Hd) in H.
  injection H as <- <- <-.
  repeat split. exists job, sheet. repeat split; try assumption.
  intro bends.
  rewrite (ProcessJob_succeeds h pb
             (set_Sheet job (Some (set_CurrentBends sheet bends)))
             (set_CurrentBends sheet bends) punch die eq_refl Hp Hd).
  reflexivity.
Qed.

Lemma ProcessJob_frame_witness :
  currentPunch (fst (snd (ProcessJob (fst twoBends) defaultPressBrake
                            (Some twoBendsJob))))
  = currentPunch defaultPressBrake.
Proof.
  exact (proj1 (proj2 (ProcessJob_frame (fst twoBends) defaultPressBrake
                         (fst (snd (ProcessJob (fst twoBends)
                                      defaultPressBrake (Some twoBendsJob))))
                         (Some twoBendsJob)
                         (snd (snd (ProcessJob (fst twoBends)
                                      defaultPressBrake (Some twoBendsJob))))
                         (formedSheet (fst twoBends) twoBendsJob defaultSheet)
                         eq_refl))).
Defined.

Lemma wrap_in_range (z : Z) : Int.in_range z -> Int.wrap z = z.
Proof.
  unfold Int.in_range, Int.wrap, Int.min_int, Int.max_int. intros [Hlo Hhi].
  rewrite Z.mod_small; lia.
Qed.

(** X11. [n] runs of [ProcessJob] in a row on a job with a sheet, with
    punch and die set, add [n] to the session counter as long as the sum
    does not exceed the largest [int]. *)
Theorem counter_after_runs (n : nat) (h : Store) (pb : PressBrake)
    (job : Job) (sheet : SheetMetal) (punch : Punch) (die : Die) :
  Sheet job = Some sheet ->
  currentPunch pb = Some punch -> currentDie pb = Some die ->
  Int.in_range (totalPartsBentSession pb) ->
  totalPartsBentSession pb + Z.of_nat n <= Int.max_int ->
  totalPartsBentSession (fst (ProcessJob_times n h pb (Some job)))
  = totalPartsBentSession pb + Z.of_nat n.
Proof.
  intros Hs Hp Hd R Hmax.
  rewrite (ProcessJob_times_counter n h pb job sheet punch die
             (totalPartsBentSession pb) Hs Hp Hd
             (eq_sym (wrap_in_range _ R))).
  apply wrap_in_range.
  unfold Int.in_range, Int.min_int, Int.max_int in *. lia.
Qed.

Lemma counter_after_runs_witness :
  totalPartsBentSession
    (fst (ProcessJob_times 5 (fst twoBends) defaultPressBrake
            (Some twoBendsJob))) = 0 + 5.
Proof.
  apply (counter_after_runs 5 (fst twoBends) defaultPressBrake twoBendsJob
           defaultSheet defaultPunch defaultDie eq_refl eq_refl eq_refl).
  - vm_compute. split; discriminate.
  - vm_compute. discriminate.
Defined.

(** ** Application controller: adding and clearing bends *)

(** X12. [handleAddBendStep] never dereferences a nil pointer, and whatever
    the state and the editors it does one of two things: it leaves the
    store and the job as they were, or it appends exactly one step, at a
    fresh address, leaving the dialog as it was. *)
Theorem handleAddBendStep_appends_at_most_one (w : World) :
  exists w',
    handleAddBendStep w = Some w'
    /\ ((heap w' = heap w /\ jobController (ac w') = jobController (ac w))
        \/ (jobSteps w' = jobSteps w ++ [next (heap w)]
            /\ next (heap w') = S (next (heap w))
            /\ showDialog (ac w') = showDialog (ac w))).
Proof.
  unfold handleAddBendStep.
  destruct (jobController (ac w)) as [jc |] eqn:Ejc;
    [| eexists; split; [reflexivity | left; split; [reflexivity | exact Ejc]]].
  assert (Keep : forall msg b,
             exists w', Some (updateStatus msg b w) = Some w'
                        /\ ((heap w' = heap w
                             /\ jobController (ac w') = Some jc)
                            \/ (jobSteps w' = jobSteps w ++ [next (heap w)]
                                /\ next (heap w') = S (next (heap w))
                                /\ showDialog (ac w') = showDialog (ac w)))).
  { intros msg b. eexists. split; [reflexivity |]. left.
    split; [reflexivity | exact Ejc]. }
  destruct (currentJob jc) as [job |] eqn:Ej; [| apply Keep].
  destruct (Sheet job) as [sheet |] eqn:Es; [| apply Keep].
  destruct (bendPositionEditor (ac w)) as [pos |]; [| apply Keep].
  destruct (bendAngleEditor (ac w)) as [angle |]; [| apply Keep].
  destruct (bendRadiusEditor (ac w)) as [radius |]; [| apply Keep].
  destruct ((pos <= F64.zero)%f64 || (pos >= OriginalLength sheet)%f64);
    [apply Keep |].
  destruct ((radius < minBendRadius)%f64 || (radius > maxBendRadius)%f64);
    [apply Keep |].
  destruct ((angle < minBendAngle)%f64 || (angle > maxBendAngle)%f64);
    [apply Keep |].
  destruct ((radius > radiusEpsilon)%f64
            && (radius < GetMinBendRadius sheet)%f64).
  - eexists. split; [reflexivity |]. left.
    split; [reflexivity | exact Ejc].
  - unfold runAction. rewrite Ejc.
    destruct (AddBendStep_cases (heap w) jc pos angle radius
                (selectedDirection (ac w)))
      as [[e E] | (job0 & Ej0 & E)]; rewrite E.
    + eexists. split; [reflexivity |]. left. split; reflexivity.
    + rewrite Ej in Ej0. injection Ej0 as <-.
      eexists. split; [reflexivity |]. right.
      unfold jobSteps, ac_currentJob. cbn. rewrite Ejc, Ej.
      repeat split.
Qed.

(** X13. [handleAddBendStep] never reports a failure of the controller:
    when it calls [AddBendStepToCurrentJob] the controller's checks have
    been made by the handler and pass, so the status "Failed to add bend
    step" is not set by it. *)
Theorem handleAddBendStep_controller_accepts (w w' : World) :
  handleAddBendStep w = Some w' ->
  statusText (ac w') = statusText (ac w)
  \/ forall e, statusText (ac w') <> StatusFailedToAddBendStep e.
Proof.
  unfold handleAddBendStep.
  destruct (jobController (ac w)) as [jc |] eqn:Ejc;
    [| intro H; injection H as <-; right; discriminate].
  destruct (currentJob jc) as [job |] eqn:Ej;
    [| intro H; injection H as <-; right; discriminate].
  destruct (Sheet job) as [sheet |] eqn:Es;
    [| intro H; injection H as <-; right; discriminate].
  destruct (bendPositionEditor (ac w)) as [pos |];
    [| intro H; injection H as <-; right; discriminate].
  destruct (bendAngleEditor (ac w)) as [angle |];
    [| intro H; injection H as <-; right; discriminate].
  destruct (bendRadiusEditor (ac w)) as [radius |];
    [| intro H; injection H as <-; right; discriminate].
  destruct ((pos <= F64.zero)%f64 || (pos >= OriginalLength sheet)%f64)
    eqn:E1; [intro H; injection H as <-; right; discriminate |].
  destruct ((radius < minBendRadius)%f64 || (radius > maxBendRadius)%f64)
    eqn:E2; [intro H; injection H as <-; right; discriminate |].
  destruct ((angle < minBendAngle)%f64 || (angle > maxBendAngle)%f64)
    eqn:E3; [intro H; injection H as <-; right; discriminate |].
  apply orb_false_elim in E1, E2, E3.
  destruct E1 as [P1 P2], E2 as [R1 R2], E3 as [A1 A2].
  destruct ((radius > radiusEpsilon)%f64
            && (radius < GetMinBendRadius sheet)%f64).
  - intro H. injection H as <-. left. reflexivity.
  - rewrite (runAction_addStep w jc job sheet pos angle radius
               (selectedDirection (ac w)) Ejc Ej Es P1 P2 R1 R2 A1 A2).
    intro H. injection H as <-. right. discriminate.
Qed.

Lemma handleAddBendStep_controller_accepts_witness :
  statusText (ac (stepAdded (appWithBend (F64.of_ratio 35 10)) defaultJob
                    (F64.of_Z 50) (F64.of_Z 90) (F64.of_ratio 35 10)
                    BendDirectionUp))
  = statusText (ac (appWithBend (F64.of_ratio 35 10)))
  \/ forall e,
       statusText (ac (stepAdded (appWithBend (F64.of_ratio 35 10))
                         defaultJob (F64.of_Z 50) (F64.of_Z 90)
                         (F64.of_ratio 35 10) BendDirectionUp))
       <> StatusFailedToAddBendStep e.
Proof.
  exact (handleAddBendStep_controller_accepts
           (appWithBend (F64.of_ratio 35 10))
           (stepAdded (appWithBend (F64.of_ratio 35 10)) defaultJob
              (F64.of_Z 50) (F64.of_Z 90) (F64.of_ratio 35 10)
              BendDirectionUp)
           eq_refl).
Defined.



Lemma len_zero_nil {A : Type} (l : list A) : (len l =? 0) = true <-> l = [].
Proof.
  unfold len. rewrite Z.eqb_eq. destruct l; simpl; split;
    try reflexivity; try discriminate; lia.
Qed.

(** X15. [handleClearBendSequence] never clears anything itself and never
    dereferences nil: it leaves store and job as they are.  On a job with
    steps it opens the dialog with the clearing registered as confirm
    action and no cancel action, and that action, when run, empties the
    step list and flattens the sheet; without steps it opens nothing. *)
Theorem handleClearBendSequence_asks_first (w : World) :
  exists w',
    handleClearBendSequence w = Some w'
    /\ heap w' = heap w
    /\ jobController (ac w') = jobController (ac w)
    /\ (jobSteps w = [] ->
        showDialog (ac w') = showDialog (ac w)
        /\ dialogConfirmAction (ac w') = dialogConfirmAction (ac w))
    /\ (jobSteps w <> [] ->
        showDialog (ac w') = true
        /\ dialogConfirmAction (ac w') = Some clearStepsAction
        /\ dialogCancelAction (ac w') = None
        /\ exists w2,
             runAction clearStepsAction w' = Some w2
             /\ heap w2 = heap w
             /\ jobSteps w2 = []
             /\ forall job2 s2, ac_currentJob w2 = Some job2 ->
                  Sheet job2 = Some s2 -> CurrentBends s2 = []).
Proof.
  unfold handleClearBendSequence, jobSteps, ac_currentJob.
  destruct (jobController (ac w)) as [jc |] eqn:Ejc.
  2:{ eexists. split; [reflexivity |]. cbn. rewrite Ejc.
      split; [reflexivity |]. split; [reflexivity |].
      split; [intros _; split; reflexivity | intro H; contradiction]. }
  destruct (currentJob jc) as [job |] eqn:Ej.
  2:{ eexists. split; [reflexivity |]. cbn. rewrite Ejc.
      split; [reflexivity |]. split; [reflexivity |].
      split; [intros _; split; reflexivity | intro H; contradiction]. }
  destruct (len (Steps job) =? 0) eqn:El.
  - apply len_zero_nil in El. eexists. split; [reflexivity |]. cbn.
    rewrite Ejc.
    split; [reflexivity |]. split; [reflexivity |].
    split; [intros _; split; reflexivity | intro H; contradiction].
  - eexists. split; [reflexivity |]. cbn. rewrite Ejc.
    split; [reflexivity |]. split; [reflexivity |]. split.
    + intro H. apply len_zero_nil in H. congruence.
    + intros _. repeat split.
      unfold ClearBendStepsFromCurrentJob. rewrite Ej.
      eexists. split; [reflexivity |]. cbn.
      split; [reflexivity |].
      destruct (Sheet job) as [s |] eqn:Es; cbn.
      * split; [reflexivity |]. intros job2 s2 E2 Es2.
        injection E2 as <-. cbn in Es2. injection Es2 as <-. reflexivity.
      * split; [reflexivity |]. intros job2 s2 E2 Es2.
        injection E2 as <-. cbn in Es2. congruence.
Qed.

(** X16. Whatever is clicked, the dialog part of [processEvents] runs no
    pending action and never dereferences nil: store, job and status line
    stay as they are.  With the dialog open, a click on OK or on Cancel
    closes it and forgets both actions; with no click or no dialog the
    state is unchanged. *)
Theorem processDialogEvents_only_closes (confirmClicked cancelClicked : bool)
    (w : World) :
  exists w',
    processDialogEvents confirmClicked cancelClicked w = Some w'
    /\ heap w' = heap w
    /\ jobController (ac w') = jobController (ac w)
    /\ statusText (ac w') = statusText (ac w)
    /\ (showDialog (ac w) = true ->
        confirmClicked || cancelClicked = true ->
        w' = dismissDialog w
        /\ showDialog (ac w') = false
        /\ dialogConfirmAction (ac w') = None
        /\ dialogCancelAction (ac w') = None)
    /\ (showDialog (ac w) = false
        \/ confirmClicked || cancelClicked = false -> w' = w).
Proof.
  unfold processDialogEvents.
  destruct (showDialog (ac w)) eqn:Ed.
  - destruct confirmClicked, cancelClicked; cbn;
      (eexists; split; [reflexivity |]); cbn;
      repeat split; try reflexivity; try discriminate;
      try (intros [H | H]; discriminate).
  - eexists. split; [reflexivity |].
    repeat split; try reflexivity; discriminate.
Qed.

Lemma processDialogEvents_only_closes_witness :
  exists w',
    processDialogEvents true false appWithWarning = Some w'
    /\ jobController (ac w') = jobController (ac appWithWarning)
    /\ showDialog (ac w') = false.
Proof.
  destruct (processDialogEvents_only_closes true false appWithWarning)
    as (w' & E & _ & Hjc & _ & Hclose & _).
  exists w'. split; [exact E |]. split; [exact Hjc |].
  exact (proj1 (proj2 (Hclose eq_refl eq_refl))).
Defined.

(** ** Application controller: the sheet panel *)

Lemma SFcompare_defined (x y : float64) :
  F64.is_nan x = false -> F64.is_nan y = false ->
  exists c, SFcompare x y = Some c.
Proof.
  destruct x as [sx | sx | | sx mx ex]; try discriminate;
    destruct y as [sy | sy | | sy my ey]; try discriminate;
    intros _ _; simpl; eexists; reflexivity.
Qed.

Lemma not_lt_ge (x y : float64) :
  F64.is_nan x = false -> F64.is_nan y = false ->
  (x < y)%f64 = false -> (x >= y)%f64 = true.
Proof.
  intros Hx Hy. unfold F64.lt, F64.ge, SFltb, SFleb.
  rewrite (SFcompare_antisym x y).
  destruct (SFcompare_defined x y Hx Hy) as [c E]. rewrite E.
  destruct c; simpl; congruence.
Qed.

Lemma not_gt_le (x y : float64) :
  F64.is_nan x = false -> F64.is_nan y = false ->
  (x > y)%f64 = false -> (x <= y)%f64 = true.
Proof. intros Hx Hy H. exact (not_lt_ge y x Hy Hx H). Qed.

Lemma outOfSheetRange_false (x : float64) :
  outOfSheetRange x = false -> sheetDimensionOk x.
Proof.
  unfold outOfSheetRange, sheetDimensionOk. intro H.
  apply orb_false_elim in H. destruct H as [H1 H2].
  destruct (F64.is_nan x) eqn:N; [right; reflexivity | left].
  split; [apply not_lt_ge | apply not_gt_le]; try assumption; reflexivity.
Qed.

(** What [handleSheetUpdate] returns when it reports the update. *)
Lemma handleSheetUpdate_updated (panel : SheetPanel) (job job' : option Job)
    (name : string) :
  handleSheetUpdate panel job = (SheetUpdated name, job') ->
  exists j sheet length thickness width key details,
    job = Some j /\ Sheet j = Some sheet
    /\ sheetLengthEditor panel = Some length
    /\ sheetThicknessEditor panel = Some thickness
    /\ sheetWidthEditor panel = Some width
    /\ outOfSheetRange length = false
    /\ outOfSheetRange thickness = false
    /\ outOfSheetRange width = false
    /\ lookup (materials panel) key = Some details
    /\ name = Job_Name j
    /\ job' = Some (set_Sheet j
                      (Some {| ID := ID sheet; OriginalLength := length;
                               Thickness := thickness; Width := width;
                               Material := details; CurrentBends := [] |})).
Proof.
  unfold handleSheetUpdate.
  destruct job as [j |]; [| discriminate].
  destruct (Sheet j) as [sheet |] eqn:Es; [| discriminate].
  destruct (sheetLengthEditor panel) as [length |]; [| discriminate].
  destruct (sheetThicknessEditor panel) as [thickness |]; [| discriminate].
  destruct (sheetWidthEditor panel) as [width |]; [| discriminate].
  destruct (outOfSheetRange length || outOfSheetRange thickness
            || outOfSheetRange width) eqn:Er; [discriminate |].
  apply orb_false_elim in Er. destruct Er as [Er Ew].
  apply orb_false_elim in Er. destruct Er as [El Et].
  destruct ((0 <=? selectedMaterialIdx panel)
            && (selectedMaterialIdx panel <? len (materialNames panel)));
    [| discriminate].
  destruct (lookup (materials panel)
              (nth (Z.to_nat (selectedMaterialIdx panel))
                 (materialNames panel) EmptyString))
    as [details |] eqn:Em; [| discriminate].
  intro H. injection H as <- <-.
  exists j, sheet, length, thickness, width,
    (nth (Z.to_nat (selectedMaterialIdx panel)) (materialNames panel)
       EmptyString), details.
  repeat split; assumption.
Qed.

(** X17. When [handleSheetUpdate] reports the update, the job keeps its
    name and its step list, and its sheet keeps its id, takes the three
    parsed dimensions, each inside [0.1, 10000] or NaN, takes a material of
    the catalogue, and is flat; with any other report the job is unchanged. *)
Theorem handleSheetUpdate_effect (panel : SheetPanel) (job job' : option Job)
    (st : sheetStatus) :
  handleSheetUpdate panel job = (st, job') ->
  (forall name, st = SheetUpdated name ->
     exists j j' sheet sheet',
       job = Some j /\ job' = Some j'
       /\ Sheet j = Some sheet /\ Sheet j' = Some sheet'
       /\ name = Job_Name j /\ Job_Name j' = Job_Name j
       /\ Steps j' = Steps j
       /\ ID sheet' = ID sheet
       /\ CurrentBends sheet' = []
       /\ sheetLengthEditor panel = Some (OriginalLength sheet')
       /\ sheetThicknessEditor panel = Some (Thickness sheet')
       /\ sheetWidthEditor panel = Some (Width sheet')
       /\ sheetDimensionOk (OriginalLength sheet')
       /\ sheetDimensionOk (Thickness sheet')
       /\ sheetDimensionOk (Width sheet')
       /\ exists key, In (key, Material sheet') (materials panel))
  /\ ((forall name, st <> SheetUpdated name) -> job' = job).
Proof.
  intro H. split.
  - intros name ->.
    destruct (handleSheetUpdate_updated panel job job' name H)
      as (j & sheet & length & thickness & width & key & details
          & -> & Es & El & Et & Ew & Rl & Rt & Rw & Em & -> & ->).
    exists j. eexists. exists sheet. eexists.
    split; [reflexivity |]. split; [reflexivity |].
    split; [exact Es |]. split; [reflexivity |].
    cbn. repeat split; try assumption;
      try (apply outOfSheetRange_false; assumption).
    exists key. apply lookup_In_entry, Em.
  - intro Hno. revert H. unfold handleSheetUpdate.
    destruct job as [j |]; [| intro H; injection H as _ <-; reflexivity].
    destruct (Sheet j) as [sheet |];
      [| intro H; injection H as _ <-; reflexivity].
    destruct (sheetLengthEditor panel) as [length |];
      [| intro H; injection H as _ <-; reflexivity].
    destruct (sheetThicknessEditor panel) as [thickness |];
      [| intro H; injection H as _ <-; reflexivity].
    destruct (sheetWidthEditor panel) as [width |];
      [| intro H; injection H as _ <-; reflexivity].
    destruct (outOfSheetRange length || outOfSheetRange thickness
              || outOfSheetRange width);
      [intro H; injection H as _ <-; reflexivity |].
    destruct ((0 <=? selectedMaterialIdx panel)
              && (selectedMaterialIdx panel <? len (materialNames panel)));
      [| intro H; injection H as _ <-; reflexivity].
    destruct (lookup (materials panel)
                (nth (Z.to_nat (selectedMaterialIdx panel))
                   (materialNames panel) EmptyString));
      [| intro H; injection H as _ <-; reflexivity].
    intro H. injection H as <- _. exfalso. eapply Hno. reflexivity.
Qed.

Lemma handleSheetUpdate_effect_witness :
  snd (handleSheetUpdate (panelWithLength (F64.of_Z 20000))
         (Some twoBendsJob)) = Some twoBendsJob
  /\ exists j' sheet',
       snd (handleSheetUpdate (panelWithLength (F64.of_Z 100))
              (Some twoBendsJob)) = Some j'
       /\ Sheet j' = Some sheet'
       /\ Steps j' = Steps twoBendsJob
       /\ CurrentBends sheet' = [].
Proof.
  split.
  - apply (proj2 (handleSheetUpdate_effect (panelWithLength (F64.of_Z 20000))
                    (Some twoBendsJob) _ SheetDimensionsOutOfRange eq_refl)).
    discriminate.
  - destruct (proj1 (handleSheetUpdate_effect
                       (panelWithLength (F64.of_Z 100)) (Some twoBendsJob)
                       (snd (handleSheetUpdate
                               (panelWithLength (F64.of_Z 100))
                               (Some twoBendsJob)))
                       (SheetUpdated "DefaultJob-001"%string) eq_refl)
                "DefaultJob-001"%string eq_refl)
      as (j & j' & sheet & sheet' & Ej & Ej' & _ & Es' & _ & _ & Est & _
          & Eb & _).
    injection Ej as <-.
    exists j', sheet'. repeat split; assumption.
Defined.

(** X18. [handleSheetUpdate] neither removes nor re-checks the steps: a step
    of the job that lies at or beyond the new length is still a step of the
    job after the update, although it does not pass the position check
    against the new sheet. *)
Theorem handleSheetUpdate_keeps_steps (panel : SheetPanel) (j j' : Job)
    (name : string) (sheet' : SheetMetal) (h : Store) (p : addr) :
  handleSheetUpdate panel (Some j) = (SheetUpdated name, Some j') ->
  Sheet j' = Some sheet' ->
  In p (Steps j) ->
  (Position (deref h p) >= OriginalLength sheet')%f64 = true ->
  In p (Steps j') /\ passesRangeChecks sheet' (deref h p) = false.
Proof.
  intros H Hs Hin Hpos.
  destruct (handleSheetUpdate_updated panel (Some j) (Some j') name H)
    as (j0 & sheet & length & thickness & width & key & details
        & Ej & _ & _ & _ & _ & _ & _ & _ & _ & _ & Ej').
  injection Ej as <-. injection Ej' as ->. cbn in Hs |- *.
  split; [exact Hin |].
  unfold passesRangeChecks. rewrite Hpos, orb_true_r. reflexivity.
Qed.

Lemma handleSheetUpdate_keeps_steps_witness :
  exists j' sheet',
    snd (handleSheetUpdate (panelWithLength (F64.of_Z 100))
           (Some twoBendsJob)) = Some j'
    /\ Sheet j' = Some sheet'
    /\ In 1%nat (Steps j')
    /\ passesRangeChecks sheet' (deref (fst twoBends) 1%nat) = false.
Proof.
  eexists. eexists. split; [reflexivity |]. split; [reflexivity |].
  apply (handleSheetUpdate_keeps_steps (panelWithLength (F64.of_Z 100))
           twoBendsJob _ "DefaultJob-001"%string _ (fst twoBends) 1%nat
           eq_refl eq_refl).
  - right. left. reflexivity.
  - reflexivity.
Defined.

(** ** Application controller: the selectors *)

Lemma indexOfFrom_range (names : list string) (target : string) (i k : Z) :
  indexOfFrom names target i = Some k -> i <= k < i + len names.
Proof.
  revert i. induction names as [| name rest IH]; intro i; simpl.
  - discriminate.
  - unfold len in *. simpl List.length. rewrite Nat2Z.inj_succ.
    destruct (String.eqb name target).
    + intro H. injection H as <-. lia.
    + intro H. apply IH in H. lia.
Qed.

Lemma nextIndex_cycles (idx : Z) (names : list string) :
  0 < len names <= Int.max_int -> -1 <= idx < len names ->
  nextIndex idx names = (if idx + 1 =? len names then 0 else idx + 1)
  /\ 0 <= nextIndex idx names < len names.
Proof.
  intros [Hpos Hmax] [Hlo Hhi]. unfold nextIndex.
  rewrite wrap_in_range
    by (unfold Int.in_range, Int.min_int, Int.max_int in *; lia).
  rewrite Z.rem_mod_nonneg by lia.
  destruct (Z.eqb_spec (idx + 1) (len names)) as [E | E].
  - rewrite E, Z.mod_same by lia. split; lia.
  - rewrite Z.mod_small by lia. split; lia.
Qed.

Lemma index_nth_error (names : list string) (idx : Z) :
  0 <= idx < len names ->
  exists name, index names idx = Some name /\ In name names.
Proof.
  intros [Hlo Hhi]. unfold index.
  destruct (Z.leb_spec 0 idx); [| lia].
  destruct (Z.ltb_spec idx (len names)); [| lia]. simpl.
  destruct (nth_error names (Z.to_nat idx)) as [name |] eqn:E.
  - exists name. split; [reflexivity |]. eapply nth_error_In, E.
  - apply nth_error_None in E. unfold len in *. lia.
Qed.

(** X19. A selection index starts at -1 for an empty list of names and
    inside the list otherwise, and a click on the direction selector moves
    an index that is -1 or inside the list to the next position, back to 0
    after the last, without panic: the index never leaves the list.  On an
    empty list the click changes nothing. *)
Theorem selection_stays_in_range (names : list string) :
  len names <= Int.max_int ->
  (forall target,
     -1 <= initialSelection names target < len names
     /\ (names <> [] -> 0 <= initialSelection names target))
  /\ (forall idx, names <> [] -> -1 <= idx < len names ->
        exists idx',
          bendDirectionClick idx names = Some idx'
          /\ 0 <= idx' < len names
          /\ idx' = if idx + 1 =? len names then 0 else idx + 1)
  /\ (forall idx, names = [] -> bendDirectionClick idx names = Some idx).
Proof.
  intro Hmax. split; [| split].
  - intro target. unfold initialSelection.
    destruct (len names =? 0) eqn:E.
    + apply len_zero_nil in E. subst names. split; [cbn; lia |].
      intro H. contradiction.
    + apply Z.eqb_neq in E.
      assert (0 < len names) by (unfold len in *; lia).
      destruct target as [t |]; [| lia].
      destruct (indexOfFrom names t 0) as [k |] eqn:Ek; [| lia].
      apply indexOfFrom_range in Ek. lia.
  - intros idx Hne Hidx.
    assert (Hpos : 0 < len names).
    { destruct names; [contradiction | unfold len; simpl; lia]. }
    unfold bendDirectionClick.
    destruct (Z.ltb_spec 0 (len names)); [| lia].
    destruct (nextIndex_cycles idx names ltac:(lia) Hidx) as [E R].
    destruct (index_nth_error names _ R) as (name & En & _).
    rewrite En. eexists. split; [reflexivity |]. split; [exact R | exact E].
  - intros idx ->. reflexivity.
Qed.

Lemma selection_stays_in_range_witness :
  exists idx',
    bendDirectionClick 1 [BendDirectionUp; BendDirectionDown] = Some idx'
    /\ 0 <= idx' < 2
    /\ idx' = 0.
Proof.
  apply (proj1 (proj2 (selection_stays_in_range
                         [BendDirectionUp; BendDirectionDown]
                         ltac:(vm_compute; discriminate)))).
  - discriminate.
  - cbn. lia.
Defined.

(** X20. With the names taken from the tooling manager and the index -1 or
    inside the list, a click on the punch selector does not panic and
    installs the punch stored under the next name, leaving the die and the
    counter of the press brake alone; likewise for the die selector. *)
Theorem tool_select_click_installs (tm : ToolingManager) (brake : PressBrake)
    (idx : Z) :
  (GetPunchNames tm <> [] ->
   len (GetPunchNames tm) <= Int.max_int ->
   -1 <= idx < len (GetPunchNames tm) ->
   exists name punch,
     index (GetPunchNames tm) (nextIndex idx (GetPunchNames tm)) = Some name
     /\ lookup (punches tm) name = Some punch
     /\ punchSelectClick (Some tm) (GetPunchNames tm) idx (Some brake)
        = Some (nextIndex idx (GetPunchNames tm),
                Some (SetPunch brake punch))
     /\ currentDie (SetPunch brake punch) = currentDie brake
     /\ totalPartsBentSession (SetPunch brake punch)
        = totalPartsBentSession brake)
  /\ (GetDieNames tm <> [] ->
      len (GetDieNames tm) <= Int.max_int ->
      -1 <= idx < len (GetDieNames tm) ->
      exists name die,
        index (GetDieNames tm) (nextIndex idx (GetDieNames tm)) = Some name
        /\ lookup (dies tm) name = Some die
        /\ dieSelectClick (Some tm) (GetDieNames tm) idx (Some brake)
           = Some (nextIndex idx (GetDieNames tm), Some (SetDie brake die))
        /\ currentPunch (SetDie brake die) = currentPunch brake
        /\ totalPartsBentSession (SetDie brake die)
           = totalPartsBentSession brake).
Proof.
  split.
  - intros Hne Hmax Hidx.
    assert (Hpos : 0 < len (GetPunchNames tm)).
    { destruct (GetPunchNames tm); [contradiction | unfold len; simpl; lia]. }
    destruct (nextIndex_cycles idx (GetPunchNames tm) ltac:(lia) Hidx)
      as [_ R].
    destruct (index_nth_error _ _ R) as (name & En & Hin).
    apply lookup_In_keys in Hin. destruct Hin as [punch Ep].
    exists name, punch. split; [exact En |]. split; [exact Ep |].
    unfold punchSelectClick, GetPunchByName.
    destruct (Z.ltb_spec 0 (len (GetPunchNames tm))); [| lia].
    destruct (Z.ltb_spec (nextIndex idx (GetPunchNames tm))
                (len (GetPunchNames tm))); [| lia].
    rewrite En, Ep. repeat split.
  - intros Hne Hmax Hidx.
    assert (Hpos : 0 < len (GetDieNames tm)).
    { destruct (GetDieNames tm); [contradiction | unfold len; simpl; lia]. }
    destruct (nextIndex_cycles idx (GetDieNames tm) ltac:(lia) Hidx)
      as [_ R].
    destruct (index_nth_error _ _ R) as (name & En & Hin).
    apply lookup_In_keys in Hin. destruct Hin as [die Ep].
    exists name, die. split; [exact En |]. split; [exact Ep |].
    unfold dieSelectClick, GetDieByName.
    destruct (Z.ltb_spec 0 (len (GetDieNames tm))); [| lia].
    destruct (Z.ltb_spec (nextIndex idx (GetDieNames tm))
                (len (GetDieNames tm))); [| lia].
    rewrite En, Ep. repeat split.
Qed.

Lemma tool_select_click_installs_witness :
  exists name punch,
    index (GetPunchNames NewToolingManager)
      (nextIndex 2 (GetPunchNames NewToolingManager)) = Some name
    /\ lookup (punches NewToolingManager) name = Some punch
    /\ punchSelectClick (Some NewToolingManager)
         (GetPunchNames NewToolingManager) 2 (Some defaultPressBrake)
       = Some (nextIndex 2 (GetPunchNames NewToolingManager),
               Some (SetPunch defaultPressBrake punch))
    /\ currentDie (SetPunch defaultPressBrake punch)
       = currentDie defaultPressBrake
    /\ totalPartsBentSession (SetPunch defaultPressBrake punch)
       = totalPartsBentSession defaultPressBrake.
Proof.
  apply (proj1 (tool_select_click_installs NewToolingManager
                  defaultPressBrake 2)).
  - discriminate.
  - vm_compute. discriminate.
  - cbn. lia.
Defined.

(** X21. With the names taken from the catalogue by [GetMaterialNames] and
    the index -1 or inside the list, a click on the material selector does
    not panic and gives the sheet the catalogue entry of the next name (never
    the zero material); the sheet's dimensions and bends and the job's
    steps are left as they are. *)
Theorem materialSelectClick_installs (mats : gomap MaterialDetails)
    (j : Job) (sheet : SheetMetal) (idx : Z) :
  Sheet j = Some sheet ->
  GetMaterialNames mats <> [] ->
  len (GetMaterialNames mats) <= Int.max_int ->
  -1 <= idx < len (GetMaterialNames mats) ->
  exists name details,
    index (GetMaterialNames mats) (nextIndex idx (GetMaterialNames mats))
    = Some name
    /\ lookup mats name = Some details
    /\ materialSelectClick mats (GetMaterialNames mats) idx (Some j)
       = Some (nextIndex idx (GetMaterialNames mats),
               Some (set_Sheet j (Some (set_Material sheet details)))).
Proof.
  intros Hs Hne Hmax Hidx.
  assert (Hpos : 0 < len (GetMaterialNames mats)).
  { destruct (GetMaterialNames mats);
      [contradiction | unfold len; simpl; lia]. }
  destruct (nextIndex_cycles idx (GetMaterialNames mats) ltac:(lia) Hidx)
    as [_ R].
  destruct (index_nth_error _ _ R) as (name & En & Hin).
  apply GetMaterialNames_In, lookup_In_keys in Hin.
  destruct Hin as [details Em].
  exists name, details. split; [exact En |]. split; [exact Em |].
  unfold materialSelectClick.
  destruct (Z.ltb_spec 0 (len (GetMaterialNames mats))); [| lia].
  rewrite Hs, En, Em. reflexivity.
Qed.

Lemma materialSelectClick_installs_witness :
  exists name details,
    index (GetMaterialNames GetDefaultMaterials)
      (nextIndex 0 (GetMaterialNames GetDefaultMaterials)) = Some name
    /\ lookup GetDefaultMaterials name = Some details
    /\ materialSelectClick GetDefaultMaterials
         (GetMaterialNames GetDefaultMaterials) 0 (Some twoBendsJob)
       = Some (nextIndex 0 (GetMaterialNames GetDefaultMaterials),
               Some (set_Sheet twoBendsJob
                       (Some (set_Material defaultSheet details)))).
Proof.
  apply (materialSelectClick_installs GetDefaultMaterials twoBendsJob
           defaultSheet 0 eq_refl).
  - discriminate.
  - vm_compute. discriminate.
  - cbn. lia.
Defined.

(** ** Application controller: running the job *)



(** ** The v0.4.0 layout against the v0.3.0 program *)

(** X23. The controller of the v0.4.0 layout checks the position only:
    whatever the v0.3.0 controller accepts it accepts with the same result,
    whatever it rejects the v0.3.0 controller rejects with the same error,
    and a bend that the v0.3.0 controller rejects for its radius or its
    angle is appended by it. *)
Theorem RefactoredJob_checks_position_only (h : Store) (jc : JobController)
    (pos angle radius : float64) (dir : BendDirection) :
  (forall p st,
     AddBendStepToCurrentJob h jc pos angle radius dir = (Ok p, st) ->
     RefactoredJob.AddBendStepToCurrentJob h jc pos angle radius dir
     = (Ok p, st))
  /\ (forall e st,
        RefactoredJob.AddBendStepToCurrentJob h jc pos angle radius dir
        = (Err e, st) ->
        AddBendStepToCurrentJob h jc pos angle radius dir = (Err e, st))
  /\ (forall st,
        AddBendStepToCurrentJob h jc pos angle radius dir
        = (Err (ErrBendRadius radius), st)
        \/ AddBendStepToCurrentJob h jc pos angle radius dir
           = (Err (ErrBendAngle angle), st) ->
        exists job,
          currentJob jc = Some job
          /\ RefactoredJob.AddBendStepToCurrentJob h jc pos angle radius dir
             = (Ok (next h),
                (snd (new h {| SequenceOrder := len (Steps job) + 1;
                               Position := pos; TargetAngle := angle;
                               Radius := radius; Direction := dir |}),
                 {| currentJob :=
                      Some (set_Steps job (Steps job ++ [next h])) |}))).
Proof.
  unfold AddBendStepToCurrentJob, RefactoredJob.AddBendStepToCurrentJob.
  destruct (currentJob jc) as [job |];
    [| repeat split; try discriminate; try (intros e st H; exact H);
       intros st [H | H]; discriminate].
  destruct (Sheet job) as [sheet |];
    [| repeat split; try discriminate; try (intros e st H; exact H);
       intros st [H | H]; discriminate].
  destruct ((pos <= F64.zero)%f64 || (pos >= OriginalLength sheet)%f64);
    [repeat split; try discriminate; try (intros e st H; exact H);
     intros st [H | H]; discriminate |].
  destruct ((radius < minBendRadius)%f64 || (radius > maxBendRadius)%f64).
  { repeat split; try discriminate.
    intros st _. exists job. split; reflexivity. }
  destruct ((angle < minBendAngle)%f64 || (angle > maxBendAngle)%f64).
  { repeat split; try discriminate.
    intros st _. exists job. split; reflexivity. }
  repeat split; try discriminate.
  - intros p st H. exact H.
  - intros st [H | H]; discriminate.
Qed.

Lemma RefactoredJob_checks_position_only_witness :
  exists job,
    currentJob defaultController = Some job
    /\ is_ok (fst (RefactoredJob.AddBendStepToCurrentJob emptyStore
                     defaultController (F64.of_Z 50) (F64.of_Z 250)
                     (F64.of_Z 900) BendDirectionUp)) = true.
Proof.
  destruct (proj2 (proj2 (RefactoredJob_checks_position_only emptyStore
                            defaultController (F64.of_Z 50) (F64.of_Z 250)
                            (F64.of_Z 900) BendDirectionUp))
              (emptyStore, defaultController) (or_introl eq_refl))
    as (job & Ej & E).
  exists job. split; [exact Ej |]. rewrite E. reflexivity.
Defined.



(** ** NaN *)

(** X25. NaN passes every range check, since each check is a comparison
    and a comparison with NaN is false.  [AddBendStepToCurrentJob] appends a
    step whose position, angle and radius are NaN to any job with a sheet,
    [handleAddBendStep] appends it at once with no radius warning, and
    [handleSheetUpdate] installs NaN dimensions when a catalogue material
    is selected. *)
Theorem nan_passes_range_checks :
  (forall h jc job sheet dir,
     currentJob jc = Some job -> Sheet job = Some sheet ->
     AddBendStepToCurrentJob h jc S754_nan S754_nan S754_nan dir
     = (Ok (next h),
        (snd (new h {| SequenceOrder := len (Steps job) + 1;
                       Position := S754_nan; TargetAngle := S754_nan;
                       Radius := S754_nan; Direction := dir |}),
         {| currentJob := Some (set_Steps job (Steps job ++ [next h])) |})))
  /\ (forall w jc job sheet,
        jobController (ac w) = Some jc ->
        currentJob jc = Some job -> Sheet job = Some sheet ->
        bendPositionEditor (ac w) = Some S754_nan ->
        bendAngleEditor (ac w) = Some S754_nan ->
        bendRadiusEditor (ac w) = Some S754_nan ->
        handleAddBendStep w
        = Some (stepAdded w job S754_nan S754_nan S754_nan
                  (selectedDirection (ac w))))
  /\ (forall panel j sheet details,
        Sheet j = Some sheet ->
        sheetLengthEditor panel = Some S754_nan ->
        sheetThicknessEditor panel = Some S754_nan ->
        sheetWidthEditor panel = Some S754_nan ->
        0 <= selectedMaterialIdx panel < len (materialNames panel) ->
        lookup (materials panel)
          (nth (Z.to_nat (selectedMaterialIdx panel)) (materialNames panel)
             EmptyString) = Some details ->
        handleSheetUpdate panel (Some j)
        = (SheetUpdated (Job_Name j),
           Some (set_Sheet j
                   (Some {| ID := ID sheet; OriginalLength := S754_nan;
                            Thickness := S754_nan; Width := S754_nan;
                            Material := details; CurrentBends := [] |})))).
Proof.
  destruct (nan_compares_false S754_nan eq_refl) as (_ & _ & N).
  assert (Nlt : forall y, (S754_nan < y)%f64 = false) by (intro y; apply N).
  assert (Ngt : forall y, (S754_nan > y)%f64 = false) by (intro y; apply N).
  assert (Nle : forall y, (S754_nan <= y)%f64 = false) by (intro y; apply N).
  assert (Nge : forall y, (S754_nan >= y)%f64 = false) by (intro y; apply N).
  split; [| split].
  - intros h jc job sheet dir Hj Hs.
    apply (AddBendStep_accepts h jc job sheet); auto.
  - intros w jc job sheet Hjc Hj Hs Ep Ea Er.
    unfold handleAddBendStep. rewrite Hjc, Hj, Hs, Ep, Ea, Er.
    rewrite !Nlt, !Ngt, Nle, Nge. cbn [orb andb].
    apply (runAction_addStep w jc job sheet); auto.
  - intros panel j sheet details Hs El Et Ew [Hlo Hhi] Em.
    unfold handleSheetUpdate, outOfSheetRange. rewrite Hs, El, Et, Ew.
    rewrite !Nlt, !Ngt. cbn [orb].
    destruct (Z.leb_spec 0 (selectedMaterialIdx panel)); [| lia].
    destruct (Z.ltb_spec (selectedMaterialIdx panel)
                (len (materialNames panel))); [| lia].
    cbn [andb]. rewrite Em. reflexivity.
Qed.

Lemma nan_passes_range_checks_witness :
  is_ok (fst (AddBendStepToCurrentJob emptyStore defaultController
                S754_nan S754_nan S754_nan BendDirectionUp)) = true
  /\ fst (handleSheetUpdate (panelWithLength S754_nan) (Some twoBendsJob))
     <> SheetDimensionsOutOfRange.
Proof.
  split.
  - rewrite (proj1 nan_passes_range_checks emptyStore defaultController
               defaultJob defaultSheet BendDirectionUp eq_refl eq_refl).
    reflexivity.
  - vm_compute. discriminate.
Defined.
